(** * DNS wire-format codec of [app/dns] (server.go), shallow embedding.

    Buffers ([]byte) are [list byte]; Go strings, which are byte sequences,
    are [gostring := list byte]; uint8/uint16/uint32 values are [N]; Go
    [int] offsets are [nat] (every caller passes a non-negative offset).
    The four [errors.New] messages of the file are the constructors of
    [dns_error].  Fallible functions return [M A := option (result A)]:
    [None] only arises when the fuel of the name-decoding loop runs out,
    which the termination theorem below excludes. *)

From Stdlib Require Import Arith NArith List Lia Bool.
From Stdlib Require Import Init.Byte Strings.Byte.
Import ListNotations.
Open Scope N_scope.

Abbreviation gostring := (list byte) (only parsing).

Inductive dns_error :=
| ErrPacketTooShort   (* "packet too short" *)
| ErrBufferOverflow   (* "buffer overflow" *)
| ErrTooManyJumps     (* "too many jumps" *)
| ErrLabelTooLong.    (* "label too long" *)

Inductive result (A : Type) :=
| Ok (a : A)
| Err (e : dns_error).
Arguments Ok {A} a.
Arguments Err {A} e.

Definition M (A : Type) := option (result A).
Definition ret {A} (a : A) : M A := Some (Ok a).
Definition raise {A} (e : dns_error) : M A := Some (Err e).
Definition bind {A B} (m : M A) (k : A -> M B) : M B :=
  match m with
  | Some (Ok a) => k a
  | Some (Err e) => Some (Err e)
  | None => None
  end.
Notation "x <- m ;; k" := (bind m (fun x => k))
  (at level 61, m at next level, right associativity).

(** ** Byte helpers *)

(** Go's [byte(x)] conversion: keep the low 8 bits. *)
Definition byte_of_N (n : N) : byte :=
  match Byte.of_N (N.land n 255) with Some b => b | None => Byte.x00 end.

(** [data[i]], read where the code has checked [i < len(data)]. *)
Definition at_ (data : list byte) (i : nat) : N := Byte.to_N (nth i data Byte.x00).

(** [binary.BigEndian.Uint16(data[i:i+2])]. *)
Definition Uint16 (data : list byte) (i : nat) : N :=
  N.lor (at_ data (S i)) (N.shiftl (at_ data i) 8).

(** [binary.BigEndian.Uint32(data[i:i+4])]. *)
Definition Uint32 (data : list byte) (i : nat) : N :=
  N.lor (N.lor (at_ data (i + 3)) (N.shiftl (at_ data (i + 2)) 8))
        (N.lor (N.shiftl (at_ data (i + 1)) 16) (N.shiftl (at_ data i) 24)).

(** [binary.BigEndian.PutUint16] / [PutUint32]. *)
Definition PutUint16 (v : N) : list byte :=
  [byte_of_N (N.shiftr v 8); byte_of_N v].
Definition PutUint32 (v : N) : list byte :=
  [byte_of_N (N.shiftr v 24); byte_of_N (N.shiftr v 16);
   byte_of_N (N.shiftr v 8); byte_of_N v].

(** ['.'] *)
Definition dot : byte := Byte.x2e.

(** ** decodeDomainName

    The Go loop is a [for { ... }] over the locals [offset], [jumps],
    [jumped] and the builder [name]; one iteration is [decode_step], the
    loop is [decode_loop], run with a fuel bound [decode_fuel].  The limit
    [maxJumps] is a parameter of the step so that runs under other limits
    can be compared with the code's [maxJumps := 5]. *)

Record decoder_state := mkState {
  st_offset : nat;
  st_jumps : nat;
  st_jumped : bool;
  st_name : gostring
}.

Inductive step_outcome :=
| Continue (s : decoder_state)   (* [continue] or the end of the loop body *)
| Break (s : decoder_state)      (* [offset++; break] on the zero byte *)
| Fail (e : dns_error).          (* [return "", 0, err] *)

Definition maxJumps : nat := 5.

Definition decode_step (maxJ : nat) (data : list byte) (s : decoder_state)
  : step_outcome :=
  let offset := st_offset s in
  if Nat.ltb maxJ (st_jumps s) then Fail ErrTooManyJumps
  else if Nat.leb (List.length data) offset then Fail ErrBufferOverflow
  else
    let length := at_ data offset in
    if length =? 0 then
      Break (mkState (S offset) (st_jumps s) (st_jumped s) (st_name s))
    else if N.land length 0xC0 =? 0xC0 then
      if Nat.leb (List.length data) (S offset) then Fail ErrBufferOverflow
      else
        let pointer := N.to_nat (N.land (Uint16 data offset) 0x3FFF) in
        (* [if !jumped { offset += 2 }]: the value is overwritten by
           [offset = pointer] right after *)
        let _offset := if st_jumped s then offset else (offset + 2)%nat in
        Continue (mkState pointer (S (st_jumps s)) true (st_name s))
    else
      let offset := S offset in
      let len := N.to_nat length in
      if Nat.ltb (List.length data) (offset + len) then Fail ErrBufferOverflow
      else
        Continue (mkState (offset + len) (st_jumps s) (st_jumped s)
                    (st_name s ++ firstn len (skipn offset data) ++ [dot]))%list.

Fixpoint decode_loop (maxJ : nat) (data : list byte) (fuel : nat)
  (s : decoder_state) : M decoder_state :=
  match fuel with
  | O => None
  | S f =>
      match decode_step maxJ data s with
      | Continue s' => decode_loop maxJ data f s'
      | Break s' => ret s'
      | Fail e => raise e
      end
  end.

(** Code after the loop: drop the trailing ['.'], or return ["."]. *)
Definition decode_finish (s : decoder_state) : gostring * nat :=
  match st_name s with
  | [] => ([dot], st_offset s)
  | _ => (removelast (st_name s), st_offset s)
  end.

Definition decode_init (offset : nat) : decoder_state := mkState offset 0 false [].

(** Enough iterations for every input: see [decodeDomainName_terminates]. *)
Definition decode_fuel (maxJ : nat) (data : list byte) : nat :=
  ((maxJ + 2) * (S (length data)))%nat.

Definition decodeDomainName (data : list byte) (offset : nat) : M (gostring * nat) :=
  s <- decode_loop maxJumps data (decode_fuel maxJumps data) (decode_init offset) ;;
  ret (decode_finish s).

(** ** encodeDomainName *)

(** [strings.Split(name, ".")]. *)
Fixpoint Split_dot (s : gostring) : list gostring :=
  match s with
  | [] => [[]]
  | c :: s' =>
      let r := Split_dot s' in
      if Byte.eqb c dot then [] :: r
      else match r with
           | l :: ls => (c :: l) :: ls
           | [] => [[c]]
           end
  end.

Fixpoint encode_labels (labels : list gostring) : M (list byte) :=
  match labels with
  | [] => ret []
  | label :: rest =>
      if Nat.ltb 63 (length label) then raise ErrLabelTooLong
      else
        tl <- encode_labels rest ;;
        ret (byte_of_N (N.of_nat (length label)) :: label ++ tl)
  end.

Definition encodeDomainName (name : gostring) : M (list byte) :=
  buf <- encode_labels (Split_dot name) ;;
  ret (buf ++ [Byte.x00]).

(** ** Header, Question, ResourceRecord, Packet *)

Record Header := mkHeader {
  ID : N;
  QR : bool;
  OpCode : N;
  AA : bool;
  TC : bool;
  RD : bool;
  RA : bool;
  Z_ : N;              (* the Go field [Z] *)
  ResponseCode : N;
  QuestionCount : N;
  AnswerCount : N;
  AuthorityCount : N;
  AdditionalCount : N
}.

Record Question := mkQuestion {
  QName : gostring;
  QType : N;
  QClass : N
}.

Record ResourceRecord := mkResourceRecord {
  RRName : gostring;
  RRType : N;
  RRClass : N;
  TTL : N;
  RDLength : N;
  RData : list byte
}.

Record Packet := mkPacket {
  PHeader : Header;
  PQuestion : Question;
  Answer : list ResourceRecord;
  Authority : list ResourceRecord;
  Additional : list ResourceRecord
}.

(** A [uint16] result: keep the low 16 bits. *)
Definition wrap16 (x : N) : N := N.land x 0xFFFF.

(** The [flags] word built in [Serialize]. *)
Definition header_flags (h : Header) : N :=
  let flags := 0 in
  let flags := if QR h then N.lor flags (N.shiftl 1 15) else flags in
  let flags := N.lor flags (wrap16 (N.shiftl (OpCode h) 11)) in
  let flags := if AA h then N.lor flags (N.shiftl 1 10) else flags in
  let flags := if TC h then N.lor flags (N.shiftl 1 9) else flags in
  let flags := if RD h then N.lor flags (N.shiftl 1 8) else flags in
  let flags := if RA h then N.lor flags (N.shiftl 1 7) else flags in
  let flags := N.lor flags (wrap16 (N.shiftl (Z_ h) 4)) in
  N.lor flags (ResponseCode h).

(** [headerBytes] of [Serialize]. *)
Definition serializeHeader (h : Header) : list byte :=
  PutUint16 (ID h) ++ PutUint16 (header_flags h) ++ PutUint16 (QuestionCount h) ++
  PutUint16 (AnswerCount h) ++ PutUint16 (AuthorityCount h) ++
  PutUint16 (AdditionalCount h).

(** The header part of [Deserialize], after its [len(data) < 12] check. *)
Definition deserializeHeader (data : list byte) : Header :=
  let flags := Uint16 data 2 in
  {| ID := Uint16 data 0;
     QR := negb (N.land flags 0x8000 =? 0);
     OpCode := N.land (N.shiftr flags 11) 0xF;
     AA := negb (N.land flags 0x0400 =? 0);
     TC := negb (N.land flags 0x0200 =? 0);
     RD := negb (N.land flags 0x0100 =? 0);
     RA := negb (N.land flags 0x0080 =? 0);
     Z_ := N.land (N.shiftr flags 4) 0x7;
     ResponseCode := N.land flags 0xF;
     QuestionCount := Uint16 data 4;
     AnswerCount := Uint16 data 6;
     AuthorityCount := Uint16 data 8;
     AdditionalCount := Uint16 data 10 |}.

Definition serializeQuestion (q : Question) : M (list byte) :=
  nameBytes <- encodeDomainName (QName q) ;;
  ret (nameBytes ++ PutUint16 (QType q) ++ PutUint16 (QClass q)).

Definition serializeResourceRecord (rr : ResourceRecord) : M (list byte) :=
  nameBytes <- encodeDomainName (RRName rr) ;;
  ret (nameBytes ++ (PutUint16 (RRType rr) ++ PutUint16 (RRClass rr) ++
                     PutUint32 (TTL rr) ++ PutUint16 (RDLength rr)) ++ RData rr).

(** One of the three [for _, rr := range ...] loops of [Serialize]. *)
Fixpoint serialize_section (rrs : list ResourceRecord) : M (list byte) :=
  match rrs with
  | [] => ret []
  | rr :: rest =>
      rrBytes <- serializeResourceRecord rr ;;
      restBytes <- serialize_section rest ;;
      ret (rrBytes ++ restBytes)
  end.

Definition Serialize (p : Packet) : M (list byte) :=
  let headerBytes := serializeHeader (PHeader p) in
  questionBytes <- serializeQuestion (PQuestion p) ;;
  answerBytes <- serialize_section (Answer p) ;;
  authorityBytes <- serialize_section (Authority p) ;;
  additionalBytes <- serialize_section (Additional p) ;;
  ret (headerBytes ++ questionBytes ++ answerBytes ++ authorityBytes ++ additionalBytes).

Definition deserializeQuestion (data : list byte) (offset : nat) : M (Question * nat) :=
  r <- decodeDomainName data offset ;;
  let '(name, offset) := r in
  if Nat.ltb (List.length data) (offset + 4) then raise ErrPacketTooShort
  else ret (mkQuestion name (Uint16 data offset) (Uint16 data (offset + 2)),
            (offset + 4)%nat).

Definition deserializeResourceRecord (data : list byte) (offset : nat)
  : M (ResourceRecord * nat) :=
  r <- decodeDomainName data offset ;;
  let '(name, offset) := r in
  if Nat.ltb (List.length data) (offset + 10) then raise ErrPacketTooShort
  else
    let typ := Uint16 data offset in
    let class := Uint16 data (offset + 2) in
    let ttl := Uint32 data (offset + 4) in
    let rdlength := Uint16 data (offset + 8) in
    let offset := (offset + 10)%nat in
    if Nat.ltb (List.length data) (offset + N.to_nat rdlength) then raise ErrPacketTooShort
    else ret (mkResourceRecord name typ class ttl rdlength
                (firstn (N.to_nat rdlength) (skipn offset data)),
              (offset + N.to_nat rdlength)%nat).

(** One of the three [for i := uint16(0); i < count; i++] loops of
    [Deserialize]. *)
Fixpoint deserialize_section (count : nat) (data : list byte) (offset : nat)
  : M (list ResourceRecord * nat) :=
  match count with
  | O => ret ([], offset)
  | S n =>
      r <- deserializeResourceRecord data offset ;;
      let '(rr, offset) := r in
      r' <- deserialize_section n data offset ;;
      let '(rrs, offset) := r' in
      ret (rr :: rrs, offset)
  end.

(** [Packet.Deserialize] (pointer receiver): on success every field of [p] is overwritten,
    so the method is modelled as returning the decoded packet. *)
Definition Deserialize (data : list byte) : M Packet :=
  if Nat.ltb (List.length data) 12 then raise ErrPacketTooShort
  else
    let h := deserializeHeader data in
    r <- deserializeQuestion data 12 ;;
    let '(q, offset) := r in
    r <- deserialize_section (N.to_nat (AnswerCount h)) data offset ;;
    let '(answer, offset) := r in
    r <- deserialize_section (N.to_nat (AuthorityCount h)) data offset ;;
    let '(authority, offset) := r in
    r <- deserialize_section (N.to_nat (AdditionalCount h)) data offset ;;
    let '(additional, _) := r in
    ret (mkPacket h q answer authority additional).

(** ** Names as label lists (used to state properties) *)

(** The labels of a name joined with ['.']. *)
Fixpoint join_dot (labels : list gostring) : gostring :=
  match labels with
  | [] => []
  | [l] => l
  | l :: ls => l ++ dot :: join_dot ls
  end.

(** The bytes [encodeDomainName] writes for a list of labels, before the
    terminating zero. *)
Definition labels_wire (labels : list gostring) : list byte :=
  concat (map (fun l => byte_of_N (N.of_nat (List.length l)) :: l) labels).

(** The builder contents after appending each label and a ['.']. *)
Definition labels_builder (labels : list gostring) : gostring :=
  concat (map (fun l => l ++ [dot]) labels).

(** A decoded record carries exactly [RDLength] bytes of RDATA. *)
Definition rdata_complete (rr : ResourceRecord) : Prop :=
  List.length (RData rr) = N.to_nat (RDLength rr).

(** Concrete messages used to exercise the packet codec. *)

Definition witness_packet : Packet :=
  mkPacket (mkHeader 1 false 0 false false true false 0 0 1 1 0 0)
    (mkQuestion ["a"]%byte 1 1)
    [mkResourceRecord ["a"]%byte 1 1 60 1 ["007"]%byte] [] [].

Definition witness_packet_bytes : list byte :=
  ["000"; "001"; "001"; "000"; "000"; "001"; "000"; "001"; "000"; "000"; "000"; "000";
   "001"; "a"; "000"; "000"; "001"; "000"; "001";
   "001"; "a"; "000"; "000"; "001"; "000"; "001"; "000"; "000"; "000"; "060";
   "000"; "001"; "007"]%byte.

Definition witness_rdata_bytes : list byte :=
  ["000"; "001"; "001"; "000"; "000"; "001"; "000"; "001"; "000"; "000"; "000"; "000";
   "000"; "000"; "001"; "000"; "001";
   "000"; "000"; "001"; "000"; "001"; "000"; "000"; "000"; "060"; "000"; "002";
   "127"; "001"]%byte.

Definition witness_rdata_packet : Packet :=
  mkPacket (mkHeader 1 false 0 false false true false 0 0 1 1 0 0)
    (mkQuestion [dot] 1 1)
    [mkResourceRecord [dot] 1 1 60 2 ["127"; "001"]%byte] [] [].

Definition witness_truncated_bytes : list byte :=
  ["000"; "001"; "001"; "000"; "000"; "001"; "000"; "001"; "000"; "000"; "000"; "000";
   "000"; "000"; "001"; "000"; "001";
   "000"; "000"; "001"; "000"; "001"; "000"; "000"; "000"; "060"; "000"; "004";
   "127"; "000"]%byte.

(** Iterations of the decoding loop that end in [continue]: the states the
    loop passes through under the jump limit [maxJ]. *)
Inductive decode_steps (maxJ : nat) (data : list byte)
  : decoder_state -> decoder_state -> Prop :=
| steps_refl s : decode_steps maxJ data s s
| steps_next s s' s'' :
    decode_step maxJ data s = Continue s' ->
    decode_steps maxJ data s' s'' ->
    decode_steps maxJ data s s''.

(** Exhaustive check of [f] on [base, base + k). *)
Fixpoint check_upto (k : nat) (base : N) (f : N -> bool) : bool :=
  match k with
  | O => true
  | S k' => f base && check_upto k' (N.succ base) f
  end.

Definition bools : list bool := [true; false].

(** The flag fields of [deserializeHeader] read back from [header_flags]. *)
Definition flags_fields_ok (qr aa tc rd ra : bool) (op z rc : N) : bool :=
  let flags := header_flags (mkHeader 0 qr op aa tc rd ra z rc 0 0 0 0) in
  (flags <? 65536) &&
  Bool.eqb (negb (N.land flags 0x8000 =? 0)) qr &&
  (N.land (N.shiftr flags 11) 0xF =? op) &&
  Bool.eqb (negb (N.land flags 0x0400 =? 0)) aa &&
  Bool.eqb (negb (N.land flags 0x0200 =? 0)) tc &&
  Bool.eqb (negb (N.land flags 0x0100 =? 0)) rd &&
  Bool.eqb (negb (N.land flags 0x0080 =? 0)) ra &&
  (N.land (N.shiftr flags 4) 0x7 =? z) &&
  (N.land flags 0xF =? rc).

(** [f] on every value of the flag fields in range. *)
Definition check_flag_fields (f : bool -> bool -> bool -> bool -> bool -> N -> N -> N -> bool)
  : bool :=
  forallb (fun qr => forallb (fun aa => forallb (fun tc => forallb (fun rd =>
  forallb (fun ra =>
    check_upto 16 0 (fun op => check_upto 8 0 (fun z => check_upto 16 0 (fun rc =>
      f qr aa tc rd ra op z rc)))
  ) bools) bools) bools) bools) bools.

(** [PutUint16] followed by [Uint16], on the value [v]. *)
Definition uint16_ok (v : N) : bool :=
  N.lor (N.land v 255) (N.shiftl (N.land (N.shiftr v 8) 255) 8) =? v.

(** [Uint16] of two bytes [x y]: its range and its two bytes back. *)
Definition byte_pair_ok (x y : N) : bool :=
  let v := N.lor y (N.shiftl x 8) in
  (v <? 65536) && (N.land (N.shiftr v 8) 255 =? x) && (N.land v 255 =? y).

(** The flag fields [Deserialize] reads from the word [v], packed again as
    [Serialize] does. *)
Definition flags_word_ok (v : N) : bool :=
  header_flags (mkHeader 0 (negb (N.land v 0x8000 =? 0)) (N.land (N.shiftr v 11) 0xF)
                  (negb (N.land v 0x0400 =? 0)) (negb (N.land v 0x0200 =? 0))
                  (negb (N.land v 0x0100 =? 0)) (negb (N.land v 0x0080 =? 0))
                  (N.land (N.shiftr v 4) 0x7) (N.land v 0xF) 0 0 0 0) =? v.

(** ** Well-formed messages (used to state round trips) *)

(** Every label of the name is 1 to 63 bytes long. *)
Definition name_ok (name : gostring) : Prop :=
  Forall (fun l => (1 <= List.length l <= 63)%nat) (Split_dot name).

Definition header_ok (h : Header) : Prop :=
  ID h < 65536 /\ OpCode h < 16 /\ Z_ h < 8 /\ ResponseCode h < 16 /\
  QuestionCount h < 65536 /\ AnswerCount h < 65536 /\
  AuthorityCount h < 65536 /\ AdditionalCount h < 65536.

Definition question_ok (q : Question) : Prop :=
  name_ok (QName q) /\ QType q < 65536 /\ QClass q < 65536.

Definition rr_ok (rr : ResourceRecord) : Prop :=
  name_ok (RRName rr) /\ RRType rr < 65536 /\ RRClass rr < 65536 /\
  TTL rr < 4294967296 /\ RDLength rr < 65536 /\
  List.length (RData rr) = N.to_nat (RDLength rr).

(** The header's record counts are the lengths of the three sections. *)
Definition packet_ok (p : Packet) : Prop :=
  header_ok (PHeader p) /\ question_ok (PQuestion p) /\
  Forall rr_ok (Answer p ++ Authority p ++ Additional p) /\
  N.to_nat (AnswerCount (PHeader p)) = List.length (Answer p) /\
  N.to_nat (AuthorityCount (PHeader p)) = List.length (Authority p) /\
  N.to_nat (AdditionalCount (PHeader p)) = List.length (Additional p).

(** The names [Serialize] encodes, in order. *)
Definition packet_names (p : Packet) : list gostring :=
  QName (PQuestion p) :: map RRName (Answer p ++ Authority p ++ Additional p).

(** Bytes [serializeResourceRecord] writes for [rr] when its name encodes. *)
Definition rr_size (rr : ResourceRecord) : nat :=
  (List.length (RRName rr) + 2 + 10 + List.length (RData rr))%nat.

(** The outcomes of the decoding functions: a value, or one of the errors a
    read can raise (never "label too long"), and never out of fuel. *)
Definition read_ok {A} (x : M A) : Prop :=
  match x with
  | Some (Ok _) => True
  | Some (Err e) => e = ErrPacketTooShort \/ e = ErrBufferOverflow \/ e = ErrTooManyJumps
  | None => False
  end.

(** ** Termination of the name-decoding loop *)

Section DecodeMeasure.
Variable maxJ : nat.
Variable data : list byte.

(** Each [continue] either follows a pointer, which uses up one of the at
    most [maxJ + 1] jumps, or consumes a non-empty label, which strictly
    advances [offset] towards [len(data)]. *)
Definition decode_measure (s : decoder_state) : nat :=
  ((S maxJ - st_jumps s) * S (List.length data) + (List.length data - st_offset s))%nat.

Lemma decode_step_measure s s' :
  decode_step maxJ data s = Continue s' -> (decode_measure s' < decode_measure s)%nat.
Proof.
  unfold decode_step, decode_measure.
  destruct (Nat.ltb maxJ (st_jumps s)) eqn:Hj; [discriminate|].
  destruct (Nat.leb (List.length data) (st_offset s)) eqn:Ho; [discriminate|].
  apply Nat.ltb_ge in Hj; apply Nat.leb_gt in Ho.
  destruct (at_ data (st_offset s) =? 0) eqn:Hz; [discriminate|].
  destruct (N.land (at_ data (st_offset s)) 0xC0 =? 0xC0).
  - destruct (Nat.leb (List.length data) (S (st_offset s))); [discriminate|].
    intros H; injection H as <-; cbn [st_jumps st_offset].
    replace (S maxJ - S (st_jumps s))%nat with (maxJ - st_jumps s)%nat by lia.
    replace (S maxJ - st_jumps s)%nat with (S (maxJ - st_jumps s)) by lia.
    rewrite Nat.mul_succ_l; lia.
  - apply N.eqb_neq in Hz.
    destruct (Nat.ltb (List.length data)
                (S (st_offset s) + N.to_nat (at_ data (st_offset s))))
      eqn:Hl; [discriminate|].
    apply Nat.ltb_ge in Hl.
    intros H; injection H as <-; cbn [st_jumps st_offset].
    assert (N.to_nat (at_ data (st_offset s)) <> 0%nat) by lia.
    nia.
Qed.

Lemma decode_loop_total f s :
  (decode_measure s < f)%nat -> exists r, decode_loop maxJ data f s = Some r.
Proof.
  revert s; induction f as [|f IH]; intros s Hf; [lia|].
  simpl. destruct (decode_step maxJ data s) as [s'|s'|e] eqn:Hs.
  - apply IH. apply decode_step_measure in Hs. lia.
  - eexists; reflexivity.
  - eexists; reflexivity.
Qed.

Lemma decode_loop_more_fuel f f' s r :
  decode_loop maxJ data f s = Some r -> (f <= f')%nat ->
  decode_loop maxJ data f' s = Some r.
Proof.
  revert f' s; induction f as [|f IH]; intros f' s H Hle; [discriminate|].
  destruct f' as [|f']; [lia|].
  simpl in *. destruct (decode_step maxJ data s); auto.
  apply IH; auto; lia.
Qed.

Lemma decode_fuel_enough offset :
  (decode_measure (decode_init offset) < decode_fuel maxJ data)%nat.
Proof.
  unfold decode_measure, decode_fuel, decode_init; simpl.
  replace (maxJ + 2)%nat with (S (S maxJ)) by lia.
  replace (maxJ - 0)%nat with maxJ by lia.
  nia.
Qed.

End DecodeMeasure.

(** ** Byte-level facts *)

Lemma byte_of_N_to_N n : Byte.to_N (byte_of_N n) = N.land n 255.
Proof.
  unfold byte_of_N.
  assert (Hlt : N.land n 255 < 256).
  { change 255 with (N.ones 8). rewrite N.land_ones.
    apply N.mod_lt. discriminate. }
  destruct (Byte.of_N (N.land n 255)) as [b|] eqn:Hb.
  - apply Byte.to_of_N in Hb. auto.
  - apply Byte.of_N_None_iff in Hb. lia.
Qed.

Lemma byte_of_N_small n : n < 256 -> Byte.to_N (byte_of_N n) = n.
Proof.
  intros H. rewrite byte_of_N_to_N. change 255 with (N.ones 8).
  rewrite N.land_ones. apply N.mod_small. exact H.
Qed.

Lemma at_app data rest b : at_ (data ++ b :: rest) (List.length data) = Byte.to_N b.
Proof.
  unfold at_. rewrite app_nth2 by lia. rewrite Nat.sub_diag. reflexivity.
Qed.

(** A length byte whose two high bits are not both set is below [0xC0]. *)
Lemma byte_not_pointer_lt (b : byte) :
  N.land (Byte.to_N b) 0xC0 <> 0xC0 -> Byte.to_N b < 192.
Proof.
  assert (H : (N.land (Byte.to_N b) 0xC0 =? 0xC0) || (Byte.to_N b <? 192) = true)
    by (destruct b; reflexivity).
  intros Hn. apply orb_true_iff in H as [H|H].
  - apply N.eqb_eq in H. contradiction.
  - apply N.ltb_lt. exact H.
Qed.

Lemma small_not_pointer n : n < 64 -> N.land n 0xC0 = 0.
Proof.
  intros H. rewrite <- (N2Nat.id n). assert (Hk : (N.to_nat n < 64)%nat) by lia.
  generalize (N.to_nat n) Hk. intros k Hk'.
  do 64 (destruct k as [|k]; [reflexivity|]). lia.
Qed.

Lemma check_upto_spec k base f :
  check_upto k base f = true -> forall x, base <= x -> x < base + N.of_nat k -> f x = true.
Proof.
  revert base; induction k as [|k IH]; intros base H x Hlo Hhi; simpl in *; [lia|].
  apply andb_true_iff in H as [H1 H2].
  destruct (N.eq_dec x base) as [->|Hne]; auto.
  apply (IH (N.succ base)); auto; lia.
Qed.

Lemma uint16_check_ok : check_upto (N.to_nat 65536) 0 uint16_ok = true.
Proof. vm_compute. reflexivity. Qed.

Lemma flags_check_ok : check_flag_fields flags_fields_ok = true.
Proof. vm_compute. reflexivity. Qed.

Lemma uint16_roundtrip v :
  v < 65536 -> N.lor (N.land v 255) (N.shiftl (N.land (N.shiftr v 8) 255) 8) = v.
Proof.
  intros Hv. apply N.eqb_eq.
  refine (check_upto_spec _ _ _ uint16_check_ok v _ _); [lia|].
  vm_compute (N.of_nat _). lia.
Qed.

Ltac split_checks :=
  repeat match goal with
  | H : (_ && _) = true |- _ => apply andb_true_iff in H as [? ?]
  | H : Bool.eqb _ _ = true |- _ => apply Bool.eqb_prop in H
  | H : (_ =? _) = true |- _ => apply N.eqb_eq in H
  | H : (_ <? _) = true |- _ => apply N.ltb_lt in H
  end.

Lemma in_bools b : In b bools.
Proof. destruct b; simpl; auto. Qed.

Lemma check_flag_fields_spec f :
  check_flag_fields f = true ->
  forall qr aa tc rd ra op z rc, op < 16 -> z < 8 -> rc < 16 ->
  f qr aa tc rd ra op z rc = true.
Proof.
  unfold check_flag_fields. intros H qr aa tc rd ra op z rc Hop Hz Hrc.
  rewrite forallb_forall in H; specialize (H qr (in_bools qr)).
  rewrite forallb_forall in H; specialize (H aa (in_bools aa)).
  rewrite forallb_forall in H; specialize (H tc (in_bools tc)).
  rewrite forallb_forall in H; specialize (H rd (in_bools rd)).
  rewrite forallb_forall in H; specialize (H ra (in_bools ra)).
  apply (fun H => check_upto_spec _ _ _ H op) in H; [|lia|simpl; lia].
  apply (fun H => check_upto_spec _ _ _ H z) in H; [|lia|simpl; lia].
  apply (fun H => check_upto_spec _ _ _ H rc) in H; [|lia|simpl; lia].
  exact H.
Qed.

Lemma flags_roundtrip qr aa tc rd ra op z rc :
  op < 16 -> z < 8 -> rc < 16 ->
  let flags := header_flags (mkHeader 0 qr op aa tc rd ra z rc 0 0 0 0) in
  flags < 65536 /\
  negb (N.land flags 0x8000 =? 0) = qr /\
  N.land (N.shiftr flags 11) 0xF = op /\
  negb (N.land flags 0x0400 =? 0) = aa /\
  negb (N.land flags 0x0200 =? 0) = tc /\
  negb (N.land flags 0x0100 =? 0) = rd /\
  negb (N.land flags 0x0080 =? 0) = ra /\
  N.land (N.shiftr flags 4) 0x7 = z /\
  N.land flags 0xF = rc.
Proof.
  intros Hop Hz Hrc flags.
  pose proof (check_flag_fields_spec _ flags_check_ok qr aa tc rd ra op z rc Hop Hz Hrc)
    as H.
  unfold flags_fields_ok in H. split_checks. repeat split; assumption.
Qed.

Lemma header_flags_fields h :
  header_flags h =
  header_flags (mkHeader 0 (QR h) (OpCode h) (AA h) (TC h) (RD h) (RA h)
                  (Z_ h) (ResponseCode h) 0 0 0 0).
Proof. reflexivity. Qed.

(** ** Header codec *)

(** C4: for a header whose fields are in their bit ranges, unpacking the
    12 bytes that [Serialize] packs gives back every field. *)
Theorem header_roundtrip (h : Header) :
  ID h < 65536 -> OpCode h < 16 -> Z_ h < 8 -> ResponseCode h < 16 ->
  QuestionCount h < 65536 -> AnswerCount h < 65536 ->
  AuthorityCount h < 65536 -> AdditionalCount h < 65536 ->
  deserializeHeader (serializeHeader h) = h.
Proof.
  intros Hid Hop Hz Hrc Hqc Hac Hauc Hadc.
  pose proof (flags_roundtrip (QR h) (AA h) (TC h) (RD h) (RA h) (OpCode h) (Z_ h)
                (ResponseCode h) Hop Hz Hrc) as Hf.
  rewrite <- header_flags_fields in Hf. cbv zeta in Hf.
  destruct Hf as (Hlt & Hqr & Hop' & Haa & Htc & Hrd & Hra & Hz' & Hrc').
  unfold deserializeHeader, serializeHeader, PutUint16, Uint16, at_.
  cbn [app nth]. rewrite !byte_of_N_to_N.
  rewrite !uint16_roundtrip by assumption.
  rewrite Hqr, Hop', Haa, Htc, Hrd, Hra, Hz', Hrc'.
  destruct h; reflexivity.
Qed.

(** ** Termination of decodeDomainName *)

(** C2: [decodeDomainName] terminates on every buffer and starting offset,
    cyclic pointer chains included: within [decode_fuel] iterations the loop
    returns a name with a cursor or an error, and more iterations would not
    change the outcome. *)
Theorem decodeDomainName_terminates (data : list byte) (offset : nat) :
  (exists r, decodeDomainName data offset = Some r) /\
  forall k,
    decode_loop maxJumps data (decode_fuel maxJumps data + k) (decode_init offset) =
    decode_loop maxJumps data (decode_fuel maxJumps data) (decode_init offset).
Proof.
  destruct (decode_loop_total maxJumps data (decode_fuel maxJumps data)
              (decode_init offset) (decode_fuel_enough maxJumps data offset))
    as [r Hr].
  split.
  - unfold decodeDomainName. rewrite Hr.
    destruct r as [s|e]; eexists; reflexivity.
  - intros k. rewrite Hr. apply (decode_loop_more_fuel _ _ _ _ _ _ Hr). lia.
Qed.

(** ** One iteration of the decoding loop, case by case *)

Lemma decode_step_zero maxJ data s :
  (st_jumps s <= maxJ)%nat -> (st_offset s < List.length data)%nat ->
  at_ data (st_offset s) = 0 ->
  decode_step maxJ data s =
  Break (mkState (S (st_offset s)) (st_jumps s) (st_jumped s) (st_name s)).
Proof.
  intros Hj Ho Hz. unfold decode_step; cbv zeta.
  rewrite (proj2 (Nat.ltb_ge _ _) Hj), (proj2 (Nat.leb_gt _ _) Ho), Hz.
  reflexivity.
Qed.

Lemma decode_step_label maxJ data s :
  (st_jumps s <= maxJ)%nat -> (st_offset s < List.length data)%nat ->
  at_ data (st_offset s) <> 0 ->
  N.land (at_ data (st_offset s)) 0xC0 <> 0xC0 ->
  (S (st_offset s) + N.to_nat (at_ data (st_offset s)) <= List.length data)%nat ->
  decode_step maxJ data s =
  Continue (mkState (S (st_offset s) + N.to_nat (at_ data (st_offset s)))
              (st_jumps s) (st_jumped s)
              (st_name s ++ firstn (N.to_nat (at_ data (st_offset s)))
                              (skipn (S (st_offset s)) data) ++ [dot])).
Proof.
  intros Hj Ho Hz Hp Hl. unfold decode_step; cbv zeta.
  rewrite (proj2 (Nat.ltb_ge _ _) Hj), (proj2 (Nat.leb_gt _ _) Ho).
  rewrite (proj2 (N.eqb_neq _ _) Hz), (proj2 (N.eqb_neq _ _) Hp).
  rewrite (proj2 (Nat.ltb_ge _ _) Hl). reflexivity.
Qed.

Lemma decode_step_pointer maxJ data s :
  (st_jumps s <= maxJ)%nat -> (S (st_offset s) < List.length data)%nat ->
  N.land (at_ data (st_offset s)) 0xC0 = 0xC0 ->
  decode_step maxJ data s =
  Continue (mkState (N.to_nat (N.land (Uint16 data (st_offset s)) 0x3FFF))
              (S (st_jumps s)) true (st_name s)).
Proof.
  intros Hj Ho Hp. unfold decode_step; cbv zeta.
  rewrite (proj2 (Nat.ltb_ge _ _) Hj), (proj2 (Nat.leb_gt (List.length data) (st_offset s)) ltac:(lia)).
  destruct (N.eqb_spec (at_ data (st_offset s)) 0) as [Hz|Hz].
  - rewrite Hz in Hp. discriminate.
  - rewrite Hp, N.eqb_refl, (proj2 (Nat.leb_gt _ _) Ho). reflexivity.
Qed.

(** ** strings.Split and the label list *)

Lemma Split_dot_not_nil s : Split_dot s <> [].
Proof.
  destruct s as [|c s]; simpl; [discriminate|].
  destruct (Byte.eqb c dot); [discriminate|].
  destruct (Split_dot s); discriminate.
Qed.

Lemma join_dot_cons_cons c l ls : join_dot ((c :: l) :: ls) = c :: join_dot (l :: ls).
Proof. destruct ls; reflexivity. Qed.

Lemma join_Split_dot s : join_dot (Split_dot s) = s.
Proof.
  induction s as [|c s IH]; [reflexivity|]. cbn [Split_dot]; cbv zeta.
  pose proof (Split_dot_not_nil s) as Hnn.
  set (r := Split_dot s) in *.
  destruct (Byte.eqb c dot) eqn:Hc.
  - apply Byte.byte_dec_bl in Hc. subst c.
    destruct r as [|l ls]; [contradiction|].
    transitivity (dot :: join_dot (l :: ls)); [reflexivity|].
    rewrite IH. reflexivity.
  - destruct r as [|l ls]; [contradiction|].
    cbv beta iota. rewrite join_dot_cons_cons. f_equal. exact IH.
Qed.

Lemma encode_labels_ok labels :
  Forall (fun l => (List.length l <= 63)%nat) labels ->
  encode_labels labels = ret (labels_wire labels).
Proof.
  induction 1 as [|l ls Hl _ IH]; [reflexivity|].
  simpl. rewrite (proj2 (Nat.ltb_ge _ _) Hl), IH. reflexivity.
Qed.

Lemma labels_builder_cons l ls :
  labels_builder (l :: ls) = (l ++ [dot]) ++ labels_builder ls.
Proof. reflexivity. Qed.

Lemma removelast_labels_builder labels :
  labels <> [] -> removelast (labels_builder labels) = join_dot labels.
Proof.
  induction labels as [|l ls IH]; intros Hne; [contradiction|].
  rewrite labels_builder_cons. destruct ls as [|l' ls].
  - simpl. rewrite app_nil_r. apply removelast_last.
  - rewrite removelast_app.
    + rewrite IH by discriminate. rewrite <- app_assoc. reflexivity.
    + rewrite labels_builder_cons. destruct l'; discriminate.
Qed.

Lemma labels_wire_length labels :
  (List.length labels <= List.length (labels_wire labels))%nat.
Proof.
  induction labels as [|l ls IH]; [simpl; lia|].
  unfold labels_wire in *. simpl. rewrite length_app. lia.
Qed.

Lemma decode_loop_S maxJ data f s :
  decode_loop maxJ data (S f) s =
  match decode_step maxJ data s with
  | Continue s' => decode_loop maxJ data f s'
  | Break s' => ret s'
  | Fail e => raise e
  end.
Proof. reflexivity. Qed.

Lemma skipn_length_app {A} (pre rest : list A) : skipn (List.length pre) (pre ++ rest) = rest.
Proof. induction pre; simpl; auto. Qed.

Lemma firstn_length_app {A} (l rest : list A) : firstn (List.length l) (l ++ rest) = l.
Proof. induction l as [|x l IH]; simpl; [reflexivity|]. rewrite IH. reflexivity. Qed.

(** Decoding the bytes of a list of non-empty labels of at most 63 bytes,
    followed by the zero byte, appends each label and a ['.'] to the name
    and stops right after the zero byte. *)
Lemma decode_loop_labels_wire maxJ suf labels : forall pre s f,
  Forall (fun l => (1 <= List.length l <= 63)%nat) labels ->
  st_offset s = List.length pre -> (st_jumps s <= maxJ)%nat ->
  decode_loop maxJ (pre ++ labels_wire labels ++ Byte.x00 :: suf)
    (S (List.length labels) + f) s =
  ret (mkState (S (List.length pre + List.length (labels_wire labels)))
         (st_jumps s) (st_jumped s) (st_name s ++ labels_builder labels)).
Proof.
  induction labels as [|l ls IH]; intros pre s f Hok Hoff Hj.
  - simpl (S (List.length []) + f)%nat. rewrite decode_loop_S.
    simpl (labels_wire []). simpl (labels_builder []). simpl app at 2.
    rewrite decode_step_zero; auto.
    + rewrite Hoff, app_nil_r, Nat.add_0_r. reflexivity.
    + rewrite Hoff, length_app. simpl. lia.
    + rewrite Hoff. rewrite at_app. reflexivity.
  - inversion Hok as [|? ? Hl Hls]; subst.
    set (b := byte_of_N (N.of_nat (List.length l))).
    set (rest := labels_wire ls ++ Byte.x00 :: suf).
    assert (Hdata : pre ++ labels_wire (l :: ls) ++ Byte.x00 :: suf
                    = pre ++ b :: (l ++ rest)).
    { unfold rest, labels_wire. simpl. rewrite <- app_assoc. reflexivity. }
    assert (Hb : at_ (pre ++ b :: (l ++ rest)) (st_offset s) = N.of_nat (List.length l)).
    { rewrite Hoff, at_app. apply byte_of_N_small. lia. }
    rewrite Hdata. simpl (S (List.length (l :: ls)) + f)%nat. rewrite decode_loop_S.
    rewrite decode_step_label; auto; rewrite ?Hb.
    2: { rewrite Hoff, length_app. simpl. lia. }
    2: { lia. }
    2: { rewrite small_not_pointer by lia. discriminate. }
    2: { rewrite Nat2N.id, Hoff, length_app. simpl. rewrite length_app. lia. }
    rewrite Nat2N.id, Hoff.
    replace (skipn (S (List.length pre)) (pre ++ b :: l ++ rest)) with (l ++ rest).
    2: { symmetry. change (b :: l ++ rest) with ([b] ++ (l ++ rest)).
         rewrite app_assoc.
         replace (S (List.length pre)) with (List.length (pre ++ [b]))
           by (rewrite length_app; simpl; lia).
         apply skipn_length_app. }
    rewrite firstn_length_app.
    replace (pre ++ b :: l ++ rest) with ((pre ++ b :: l) ++ labels_wire ls ++ Byte.x00 :: suf)
      by (unfold rest; rewrite <- app_assoc; reflexivity).
    change (S (List.length ls + f)) with (S (List.length ls) + f)%nat.
    rewrite IH; auto.
    + f_equal. f_equal.
      * unfold labels_wire. simpl. rewrite !length_app. simpl. lia.
      * cbn [st_name]. rewrite labels_builder_cons. rewrite !app_assoc. reflexivity.
    + cbn [st_offset]. rewrite length_app. simpl. lia.
Qed.

Lemma decode_finish_labels s labels :
  st_name s = labels_builder labels ->
  decode_finish s =
  (match labels with [] => [dot] | _ => join_dot labels end, st_offset s).
Proof.
  intros Hn. unfold decode_finish. rewrite Hn.
  destruct labels as [|l ls]; [reflexivity|].
  rewrite <- (removelast_labels_builder (l :: ls)) by discriminate.
  rewrite labels_builder_cons. destruct l; reflexivity.
Qed.

(** ** Domain-name codec *)

(** C3 (amended): for every name whose labels (the parts of
    [strings.Split(name, ".")]) are each 1 to 63 bytes long, encoding and
    then decoding from offset 0 gives back the name, with the cursor at the
    end of the encoding. *)
Theorem encode_decode_roundtrip (name : gostring) :
  Forall (fun l => (1 <= List.length l <= 63)%nat) (Split_dot name) ->
  exists enc, encodeDomainName name = ret enc /\
              decodeDomainName enc 0 = ret (name, List.length enc).
Proof.
  intros Hok. set (labels := Split_dot name) in *.
  exists (labels_wire labels ++ [Byte.x00]). split.
  - unfold encodeDomainName. fold labels.
    rewrite encode_labels_ok; [reflexivity|].
    eapply Forall_impl; [|exact Hok]. simpl. lia.
  - set (data := labels_wire labels ++ [Byte.x00]).
    assert (Hfuel : (S (List.length labels) <= decode_fuel maxJumps data)%nat).
    { pose proof (labels_wire_length labels).
      unfold decode_fuel, data. rewrite length_app. nia. }
    pose proof (decode_loop_labels_wire maxJumps [] labels [] (decode_init 0) 0 Hok
                  eq_refl (Nat.le_0_l _)) as H.
    simpl app in H. fold data in H.
    apply (fun H => decode_loop_more_fuel _ _ _ (decode_fuel maxJumps data) _ _ H)
      in H; [|lia].
    unfold decodeDomainName. rewrite H.
    cbn [bind]. f_equal. f_equal.
    rewrite (decode_finish_labels _ labels) by reflexivity.
    cbn [st_offset]. f_equal.
    + pose proof (Split_dot_not_nil name) as Hnn. fold labels in Hnn.
      pose proof (join_Split_dot name) as Hj. fold labels in Hj.
      destruct labels; [contradiction|]. exact Hj.
    + unfold data. rewrite length_app. simpl. lia.
Qed.

(** C3 (counterexample): with an empty label, as in the fully qualified
    name ["com."], the round trip fails: ["com."] encodes to
    [3 'c' 'o' 'm' 0 0] (6 bytes), which decodes to ["com"] with cursor 5. *)
Lemma encode_decode_roundtrip_fqdn :
  ~ (forall name : gostring,
       Forall (fun l => (List.length l <= 63)%nat) (Split_dot name) ->
       exists enc, encodeDomainName name = ret enc /\
                   decodeDomainName enc 0 = ret (name, List.length enc)).
Proof.
  intros H.
  destruct (H ["c"; "o"; "m"; "."]%byte) as (enc & He & Hd).
  - repeat constructor; simpl; lia.
  - vm_compute in He. injection He as <-. vm_compute in Hd. discriminate.
Qed.

(** C6 (code_bug): [strings.Split(".", ".")] is [[""; ""]], so the root
    name ["."] encodes to three zero bytes, not to the single byte 0x00. *)
Theorem encodeDomainName_root : encodeDomainName [dot] = ret [Byte.x00; Byte.x00; Byte.x00].
Proof. reflexivity. Qed.

(** C1 (code_bug): the resume cursor is not kept.  In
    [3 'c' 'o' 'm' 0 0xC0 0x00], decoding the pointer at offset 5 returns
    the cursor 5 (the end of the target name ["com"] at offset 0) instead of
    7, the position after the pointer: [offset += 2] is overwritten by
    [offset = pointer]. *)
Theorem decodeDomainName_pointer_cursor :
  decodeDomainName ["003"; "c"; "o"; "m"; "000"; "192"; "000"]%byte 5 =
  ret (["c"; "o"; "m"]%byte, 5%nat).
Proof. reflexivity. Qed.

(** C10: a compression pointer is followed wherever it points: when its
    two bytes are in the buffer and the jump counter allows it, the next
    iteration reads at the 14-bit target, before, at or after the pointer.
    The buffer [0xC0 0x02 1 'a' 0] holds a forward pointer (offset 0 to
    offset 2) and decodes to ["a"]. *)
Theorem decode_pointer_any_direction :
  (forall data s,
     (st_jumps s <= maxJumps)%nat -> (S (st_offset s) < List.length data)%nat ->
     N.land (at_ data (st_offset s)) 0xC0 = 0xC0 ->
     decode_step maxJumps data s =
     Continue (mkState (N.to_nat (N.land (Uint16 data (st_offset s)) 0x3FFF))
                 (S (st_jumps s)) true (st_name s))) /\
  N.land (Uint16 ["192"; "002"; "001"; "a"; "000"]%byte 0) 0x3FFF = 2 /\
  decodeDomainName ["192"; "002"; "001"; "a"; "000"]%byte 0 = ret (["a"]%byte, 5%nat).
Proof.
  split; [|split; reflexivity].
  intros data s Hj Ho Hp. apply decode_step_pointer; assumption.
Qed.

(** ** The jump limit *)

Ltac step_cases :=
  unfold decode_step; cbv zeta;
  repeat match goal with
  | |- context [if ?c then _ else _] => let E := fresh "E" in destruct c eqn:E
  end.

Lemma decode_step_budget m m' data s :
  (st_jumps s <= m)%nat -> (st_jumps s <= m')%nat ->
  decode_step m data s = decode_step m' data s.
Proof.
  intros H H'. unfold decode_step.
  rewrite (proj2 (Nat.ltb_ge _ _) H), (proj2 (Nat.ltb_ge _ _) H'). reflexivity.
Qed.

Lemma decode_step_continue_jumps m data s s' :
  decode_step m data s = Continue s' ->
  (st_jumps s <= m)%nat /\ (st_jumps s <= st_jumps s' <= S (st_jumps s))%nat.
Proof.
  step_cases; intros H; try discriminate; injection H as <-;
    apply Nat.ltb_ge in E; simpl; lia.
Qed.

Lemma decode_step_break_jumps m data s s' :
  decode_step m data s = Break s' -> (st_jumps s <= m)%nat.
Proof.
  step_cases; intros H; try discriminate. apply Nat.ltb_ge in E. exact E.
Qed.

Lemma decode_steps_jumps m data s s' :
  decode_steps m data s s' -> (st_jumps s <= st_jumps s')%nat.
Proof.
  induction 1 as [|s1 s2 s3 Hs _ IH]; [lia|].
  apply decode_step_continue_jumps in Hs. lia.
Qed.

(** A run under any jump limit, seen from a state within the code's limit:
    up to [maxJumps] jumps it is a run of the code, and a run that goes
    beyond takes the code to a state past the limit. *)
Lemma decode_steps_to_code m data s s' :
  decode_steps m data s s' -> (st_jumps s <= maxJumps)%nat ->
  ((st_jumps s' <= maxJumps)%nat -> decode_steps maxJumps data s s') /\
  ((maxJumps < st_jumps s')%nat ->
   exists s6, decode_steps maxJumps data s s6 /\ (maxJumps < st_jumps s6)%nat).
Proof.
  induction 1 as [s|s1 s2 s3 Hs Hsteps IH]; intros Hj.
  - split; [intros; constructor | lia].
  - pose proof (decode_step_continue_jumps _ _ _ _ Hs) as [Hm Hj2].
    assert (Hcode : decode_step maxJumps data s1 = Continue s2)
      by (rewrite (decode_step_budget maxJumps m) by lia; exact Hs).
    pose proof (decode_steps_jumps _ _ _ _ Hsteps) as Hmono.
    destruct (Nat.le_gt_cases (st_jumps s2) maxJumps) as [Hle|Hgt].
    + destruct (IH Hle) as [IH1 IH2]. split.
      * intros H3. econstructor; [exact Hcode|]. apply IH1. exact H3.
      * intros H3. destruct (IH2 H3) as (s6 & Hs6 & Hgt6).
        exists s6. split; [econstructor; [exact Hcode|exact Hs6]|exact Hgt6].
    + split; [lia|]. intros _. exists s2.
      split; [econstructor; [exact Hcode|constructor]|exact Hgt].
Qed.

Lemma decode_loop_along_steps m data s s' f r :
  decode_steps m data s s' -> decode_loop m data f s = Some r ->
  exists f', decode_loop m data f' s' = Some r.
Proof.
  intros Hsteps. revert f. induction Hsteps as [s|s1 s2 s3 Hs _ IH]; intros f Hf.
  - exists f. exact Hf.
  - destruct f as [|f]; [discriminate|].
    rewrite decode_loop_S, Hs in Hf. apply (IH f Hf).
Qed.

(** C5: a pointer chain that needs more than [maxJumps = 5] jumps (the run
    of the loop, under any jump limit, reaches a sixth jump, as on a cyclic
    chain) makes [decodeDomainName] fail with [TooManyJumps]; a chain of at
    most 5 jumps (so exactly 5 in particular) that ends on a valid name
    decodes to that name. *)
Theorem decode_jump_limit (data : list byte) (offset : nat) :
  (forall m s,
     decode_steps m data (decode_init offset) s -> (maxJumps < st_jumps s)%nat ->
     decodeDomainName data offset = raise ErrTooManyJumps) /\
  (forall m s s',
     decode_steps m data (decode_init offset) s -> (st_jumps s <= maxJumps)%nat ->
     decode_step m data s = Break s' ->
     decodeDomainName data offset = ret (decode_finish s')).
Proof.
  destruct (decode_loop_total maxJumps data (decode_fuel maxJumps data)
              (decode_init offset) (decode_fuel_enough maxJumps data offset))
    as [r Hr].
  assert (H0 : (st_jumps (decode_init offset) <= maxJumps)%nat) by (simpl; lia).
  unfold decodeDomainName. rewrite Hr. split.
  - intros m s Hsteps Hgt.
    destruct (proj2 (decode_steps_to_code _ _ _ _ Hsteps H0) Hgt) as (s6 & Hs6 & Hgt6).
    destruct (decode_loop_along_steps _ _ _ _ _ _ Hs6 Hr) as ([|f] & Hf);
      [discriminate|].
    rewrite decode_loop_S in Hf. unfold decode_step in Hf.
    rewrite (proj2 (Nat.ltb_lt _ _) Hgt6) in Hf. injection Hf as <-. reflexivity.
  - intros m s s' Hsteps Hle Hbreak.
    pose proof (proj1 (decode_steps_to_code _ _ _ _ Hsteps H0) Hle) as Hcode.
    destruct (decode_loop_along_steps _ _ _ _ _ _ Hcode Hr) as ([|f] & Hf);
      [discriminate|].
    rewrite decode_loop_S in Hf.
    rewrite (decode_step_budget maxJumps m) in Hf
      by (try apply (decode_step_break_jumps _ _ _ _ Hbreak); lia).
    rewrite Hbreak in Hf. injection Hf as <-. reflexivity.
Qed.

(** ** Labels of decoded names *)

Lemma labels_builder_snoc labels l :
  labels_builder (labels ++ [l]) = labels_builder labels ++ l ++ [dot].
Proof.
  unfold labels_builder. rewrite map_app, concat_app. simpl. rewrite app_nil_r. reflexivity.
Qed.

Lemma decode_step_name m data s s' :
  decode_step m data s = Continue s' ->
  st_name s' = st_name s \/
  exists l, (1 <= List.length l <= 191)%nat /\ st_name s' = st_name s ++ l ++ [dot].
Proof.
  step_cases; intros H; try discriminate; injection H as <-; [left; reflexivity|].
  right. exists (firstn (N.to_nat (at_ data (st_offset s))) (skipn (S (st_offset s)) data)).
  split; [|reflexivity].
  apply N.eqb_neq in E1. apply N.eqb_neq in E2. apply Nat.ltb_ge in E3.
  pose proof (byte_not_pointer_lt (nth (st_offset s) data Byte.x00) E2) as Hlt.
  rewrite length_firstn, length_skipn. unfold at_ in *. lia.
Qed.

Lemma decode_step_break_name m data s s' :
  decode_step m data s = Break s' -> st_name s' = st_name s.
Proof. step_cases; intros H; try discriminate; injection H as <-; reflexivity. Qed.

Lemma decode_loop_labels m data f s r labels :
  decode_loop m data f s = ret r ->
  Forall (fun l => (1 <= List.length l <= 191)%nat) labels ->
  st_name s = labels_builder labels ->
  exists labels', Forall (fun l => (1 <= List.length l <= 191)%nat) labels' /\
                  st_name r = labels_builder labels'.
Proof.
  revert s labels. induction f as [|f IH]; intros s labels Hr Hok Hn; [discriminate|].
  rewrite decode_loop_S in Hr.
  destruct (decode_step m data s) as [s'|s'|e] eqn:Hs; try discriminate.
  - destruct (decode_step_name _ _ _ _ Hs) as [Hn'|(l & Hl & Hn')].
    + apply (IH s' labels Hr Hok). congruence.
    + apply (IH s' (labels ++ [l]) Hr).
      * apply Forall_app. split; auto.
      * rewrite labels_builder_snoc. congruence.
  - injection Hr as <-. exists labels. split; auto.
    rewrite (decode_step_break_name _ _ _ _ Hs). exact Hn.
Qed.

(** C8 (amended): every label a successful [decodeDomainName] appends to
    the name is 1 to 191 bytes long (any length byte whose two high bits
    are not both set is read as a label length); the name is those labels
    joined with ['.'], or ["."] when there is none.  No 63-byte label bound
    and no 255-byte name bound is checked. *)
Theorem decoded_labels_bounded data offset name cursor :
  decodeDomainName data offset = ret (name, cursor) ->
  exists labels, Forall (fun l => (1 <= List.length l <= 191)%nat) labels /\
    name = match labels with [] => [dot] | _ => join_dot labels end.
Proof.
  unfold decodeDomainName. intros H.
  destruct (decode_loop maxJumps data (decode_fuel maxJumps data) (decode_init offset))
    as [[r|e]|] eqn:Hr; try discriminate.
  cbn [bind] in H. injection H as Hfin.
  destruct (decode_loop_labels _ _ _ _ _ [] Hr (Forall_nil _) eq_refl)
    as (labels & Hok & Hn).
  exists labels. split; [exact Hok|].
  rewrite (decode_finish_labels _ _ Hn) in Hfin. congruence.
Qed.

(** C8 (counterexample): the length byte 0x40 is read as a label length,
    so [0x40 'a'*64 0] decodes to a single label of 64 bytes. *)
Lemma decoded_label_too_long :
  ~ (forall data offset name cursor,
       decodeDomainName data offset = ret (name, cursor) ->
       Forall (fun l => (List.length l <= 63)%nat) (Split_dot name)).
Proof.
  intros H.
  specialize (H ("064"%byte :: repeat "a"%byte 64 ++ ["000"%byte]) 0%nat
                (repeat "a"%byte 64) 66%nat ltac:(vm_compute; reflexivity)).
  vm_compute in H. inversion H as [|? ? Hl]. lia.
Qed.

(** ** Packet codec *)

Lemma serialize_section_inv rrs b :
  serialize_section rrs = ret b ->
  exists bs, Forall2 (fun rr b => serializeResourceRecord rr = ret b) rrs bs /\
             b = concat bs.
Proof.
  revert b; induction rrs as [|rr rrs IH]; intros b H.
  - injection H as <-. exists []. split; [constructor | reflexivity].
  - cbn [serialize_section] in H.
    destruct (serializeResourceRecord rr) as [[b1|e]|] eqn:E1; try discriminate.
    cbn [bind] in H.
    destruct (serialize_section rrs) as [[b2|e]|] eqn:E2; try discriminate.
    cbn [bind] in H. injection H as <-.
    destruct (IH b2 eq_refl) as (bs & Hf & ->).
    exists (b1 :: bs). split; [constructor; auto | reflexivity].
Qed.

Lemma deserializeResourceRecord_rdata data off rr off' :
  deserializeResourceRecord data off = ret (rr, off') ->
  List.length (RData rr) = N.to_nat (RDLength rr).
Proof.
  unfold deserializeResourceRecord. intros H.
  destruct (decodeDomainName data off) as [[[name o]|e]|]; try discriminate.
  cbn [bind] in H. cbv zeta in H.
  destruct (Nat.ltb (List.length data) (o + 10)); try discriminate.
  destruct (Nat.ltb (List.length data) (o + 10 + N.to_nat (Uint16 data (o + 8))))
    eqn:E2; try discriminate.
  injection H as <- _. cbn [RData RDLength].
  apply Nat.ltb_ge in E2. rewrite length_firstn, length_skipn. lia.
Qed.

Lemma deserialize_section_inv n data off rrs off' :
  deserialize_section n data off = ret (rrs, off') ->
  List.length rrs = n /\ Forall rdata_complete rrs.
Proof.
  revert off rrs off'; induction n as [|n IH]; intros off rrs off' H.
  - injection H as <- _. split; [reflexivity | constructor].
  - cbn [deserialize_section] in H.
    destruct (deserializeResourceRecord data off) as [[[rr o]|e]|] eqn:E1;
      try discriminate.
    cbn [bind] in H.
    destruct (deserialize_section n data o) as [[[rrs' o']|e]|] eqn:E2;
      try discriminate.
    cbn [bind] in H. injection H as <- _.
    destruct (IH _ _ _ E2) as [Hl Hf]. split; [simpl; lia|].
    constructor; [|exact Hf]. exact (deserializeResourceRecord_rdata _ _ _ _ E1).
Qed.

Lemma Deserialize_inv data p :
  Deserialize data = ret p ->
  PHeader p = deserializeHeader data /\
  List.length (Answer p) = N.to_nat (AnswerCount (PHeader p)) /\
  List.length (Authority p) = N.to_nat (AuthorityCount (PHeader p)) /\
  List.length (Additional p) = N.to_nat (AdditionalCount (PHeader p)) /\
  Forall rdata_complete (Answer p ++ Authority p ++ Additional p).
Proof.
  unfold Deserialize. intros H. cbv zeta in H.
  destruct (Nat.ltb (List.length data) 12); [discriminate|].
  destruct (deserializeQuestion data 12) as [[[q o1]|e]|]; try discriminate.
  cbn [bind] in H.
  destruct (deserialize_section (N.to_nat (AnswerCount (deserializeHeader data))) data o1)
    as [[[ans o2]|e]|] eqn:Ea; try discriminate.
  cbn [bind] in H.
  destruct (deserialize_section (N.to_nat (AuthorityCount (deserializeHeader data))) data o2)
    as [[[aut o3]|e]|] eqn:Eu; try discriminate.
  cbn [bind] in H.
  destruct (deserialize_section (N.to_nat (AdditionalCount (deserializeHeader data))) data o3)
    as [[[add o4]|e]|] eqn:Ed; try discriminate.
  cbn [bind] in H. injection H as <-. cbn [PHeader Answer Authority Additional].
  apply deserialize_section_inv in Ea as [Ha Fa], Eu as [Hu Fu], Ed as [Hd Fd].
  repeat split; auto. repeat (apply Forall_app; split); auto.
Qed.

(** C7 (amended): [Serialize] emits the header with the counts stored in
    it, then one question and one encoded record per element of [Answer],
    [Authority] and [Additional], in that order, without comparing the
    counts with the lengths of the sequences.  [Deserialize] reads one
    question, whatever [QuestionCount] says, and exactly [AnswerCount],
    [AuthorityCount] and [AdditionalCount] records, so on success the three
    sequences have the declared lengths. *)
Theorem packet_section_counts :
  (forall p bytes,
     Serialize p = ret bytes ->
     exists qb abs aubs adbs,
       serializeQuestion (PQuestion p) = ret qb /\
       Forall2 (fun rr b => serializeResourceRecord rr = ret b) (Answer p) abs /\
       Forall2 (fun rr b => serializeResourceRecord rr = ret b) (Authority p) aubs /\
       Forall2 (fun rr b => serializeResourceRecord rr = ret b) (Additional p) adbs /\
       bytes = serializeHeader (PHeader p) ++ qb ++ concat abs ++ concat aubs ++ concat adbs) /\
  (forall data p,
     Deserialize data = ret p ->
     PHeader p = deserializeHeader data /\
     List.length (Answer p) = N.to_nat (AnswerCount (PHeader p)) /\
     List.length (Authority p) = N.to_nat (AuthorityCount (PHeader p)) /\
     List.length (Additional p) = N.to_nat (AdditionalCount (PHeader p))).
Proof.
  split.
  - intros p bytes H. unfold Serialize in H. cbv zeta in H.
    destruct (serializeQuestion (PQuestion p)) as [[qb|e]|]; try discriminate.
    cbn [bind] in H.
    destruct (serialize_section (Answer p)) as [[ab|e]|] eqn:Ea; try discriminate.
    cbn [bind] in H.
    destruct (serialize_section (Authority p)) as [[aub|e]|] eqn:Eu; try discriminate.
    cbn [bind] in H.
    destruct (serialize_section (Additional p)) as [[adb|e]|] eqn:Ed; try discriminate.
    cbn [bind] in H. injection H as <-.
    apply serialize_section_inv in Ea as (abs & Ha & ->), Eu as (aubs & Hu & ->),
      Ed as (adbs & Hd & ->).
    exists qb, abs, aubs, adbs. repeat split; auto.
  - intros data p H. apply Deserialize_inv in H. tauto.
Qed.

(** C7 (counterexample): a packet whose header declares one answer but
    whose [Answer] is empty serializes without error; a buffer whose header
    declares no question deserializes with one question read. *)
Lemma packet_counts_not_checked :
  ~ (forall p bytes, Serialize p = ret bytes ->
       List.length (Answer p) = N.to_nat (AnswerCount (PHeader p))) /\
  ~ (forall data p, Deserialize data = ret p ->
       N.to_nat (QuestionCount (PHeader p)) = List.length [PQuestion p]).
Proof.
  split.
  - intros H.
    specialize (H (mkPacket (mkHeader 0 false 0 false false false false 0 0 1 1 0 0)
                            (mkQuestion [] 1 1) [] [] [])
                  _ ltac:(vm_compute; reflexivity)).
    discriminate H.
  - intros H.
    specialize (H (repeat "000"%byte 12 ++ ["000"; "000"; "001"; "000"; "001"]%byte)
                  _ ltac:(vm_compute; reflexivity)).
    discriminate H.
Qed.

(** C9: a successful [Deserialize] never yields a record whose payload is
    shorter than its RDLength; and when the header declares one answer
    whose name and fixed fields are in the buffer but whose RDLength bytes
    of RDATA are not, [Deserialize] fails with "packet too short". *)
Theorem deserialize_truncated_rdata :
  (forall data p,
     Deserialize data = ret p ->
     Forall rdata_complete (Answer p ++ Authority p ++ Additional p)) /\
  (forall data q off name off',
     (12 <= List.length data)%nat ->
     AnswerCount (deserializeHeader data) = 1 ->
     deserializeQuestion data 12 = ret (q, off) ->
     decodeDomainName data off = ret (name, off') ->
     (off' + 10 <= List.length data)%nat ->
     (List.length data < off' + 10 + N.to_nat (Uint16 data (off' + 8)))%nat ->
     Deserialize data = raise ErrPacketTooShort).
Proof.
  split.
  - intros data p H. apply Deserialize_inv in H. tauto.
  - intros data q off name off' Hlen Hac Hq Hd Hfix Htrunc.
    unfold Deserialize. rewrite (proj2 (Nat.ltb_ge _ _) Hlen). cbv zeta.
    rewrite Hq, Hac. change (N.to_nat 1) with 1%nat. cbn [bind ret deserialize_section].
    unfold deserializeResourceRecord. rewrite Hd. cbn [bind ret]. cbv zeta.
    rewrite (proj2 (Nat.ltb_ge _ _) Hfix), (proj2 (Nat.ltb_lt _ _) Htrunc).
    reflexivity.
Qed.

(** ** Witnesses: the theorems applied at concrete inputs *)

Lemma header_roundtrip_witness :
  deserializeHeader
    (serializeHeader (mkHeader 0x1234 true 0 false false true true 0 0 1 1 0 0)) =
  mkHeader 0x1234 true 0 false false true true 0 0 1 1 0 0.
Proof. apply header_roundtrip; simpl; lia. Defined.

Lemma encode_decode_roundtrip_witness :
  exists enc,
    encodeDomainName ["e"; "x"; "a"; "m"; "p"; "l"; "e"; "."; "c"; "o"; "m"]%byte = ret enc /\
    decodeDomainName enc 0 =
    ret (["e"; "x"; "a"; "m"; "p"; "l"; "e"; "."; "c"; "o"; "m"]%byte, List.length enc).
Proof.
  apply encode_decode_roundtrip. vm_compute.
  repeat constructor; discriminate.
Defined.

Lemma decode_jump_limit_witness :
  decodeDomainName ["192"; "000"]%byte 0 = raise ErrTooManyJumps /\
  decodeDomainName ["192"; "002"; "192"; "004"; "192"; "006"; "192"; "008"; "192"; "010";
                    "001"; "a"; "000"]%byte 0 =
  ret (decode_finish (mkState 13 5 true ["a"; "."]%byte)).
Proof.
  split.
  - apply (proj1 (decode_jump_limit ["192"; "000"]%byte 0) maxJumps
             (mkState 0 6 true [])).
    + repeat (eapply steps_next; [reflexivity|]). apply steps_refl.
    + vm_compute. lia.
  - apply (proj2 (decode_jump_limit
                    ["192"; "002"; "192"; "004"; "192"; "006"; "192"; "008"; "192"; "010";
                     "001"; "a"; "000"]%byte 0)
             maxJumps (mkState 12 5 true ["a"; "."]%byte)).
    + repeat (eapply steps_next; [reflexivity|]). apply steps_refl.
    + vm_compute. lia.
    + reflexivity.
Defined.

Lemma decode_pointer_any_direction_witness :
  decode_step maxJumps ["192"; "002"; "001"; "a"; "000"]%byte (decode_init 0) =
  Continue (mkState 2 1 true []).
Proof.
  apply (proj1 decode_pointer_any_direction); vm_compute; [lia | lia | reflexivity].
Defined.

Lemma decoded_labels_bounded_witness :
  exists labels, Forall (fun l => (1 <= List.length l <= 191)%nat) labels /\
    ["c"; "o"; "m"]%byte = match labels with [] => [dot] | _ => join_dot labels end.
Proof.
  apply (decoded_labels_bounded ["003"; "c"; "o"; "m"; "000"]%byte 0 _ 5).
  reflexivity.
Defined.

Lemma packet_section_counts_witness :
  (exists qb abs aubs adbs,
     serializeQuestion (PQuestion witness_packet) = ret qb /\
     Forall2 (fun rr b => serializeResourceRecord rr = ret b) (Answer witness_packet) abs /\
     Forall2 (fun rr b => serializeResourceRecord rr = ret b) (Authority witness_packet) aubs /\
     Forall2 (fun rr b => serializeResourceRecord rr = ret b) (Additional witness_packet) adbs /\
     witness_packet_bytes =
       serializeHeader (PHeader witness_packet) ++
         qb ++ concat abs ++ concat aubs ++ concat adbs) /\
  (PHeader witness_packet = deserializeHeader witness_packet_bytes /\
   List.length (Answer witness_packet) = N.to_nat (AnswerCount (PHeader witness_packet)) /\
   List.length (Authority witness_packet) = N.to_nat (AuthorityCount (PHeader witness_packet)) /\
   List.length (Additional witness_packet) = N.to_nat (AdditionalCount (PHeader witness_packet))).
Proof.
  split.
  - apply (proj1 packet_section_counts witness_packet witness_packet_bytes).
    vm_compute. reflexivity.
  - apply (proj2 packet_section_counts witness_packet_bytes witness_packet).
    vm_compute. reflexivity.
Defined.

Lemma deserialize_truncated_rdata_witness :
  Forall rdata_complete
    (Answer witness_rdata_packet ++ Authority witness_rdata_packet ++
     Additional witness_rdata_packet) /\
  Deserialize witness_truncated_bytes = raise ErrPacketTooShort.
Proof.
  split.
  - apply (proj1 deserialize_truncated_rdata witness_rdata_bytes witness_rdata_packet).
    vm_compute. reflexivity.
  - apply (proj2 deserialize_truncated_rdata witness_truncated_bytes
             (mkQuestion [dot] 1 1) 17%nat [dot] 18%nat);
      vm_compute; try lia; reflexivity.
Defined.

(** * Further properties of the codec *)

(** ** Reading bytes inside a larger buffer *)

Lemma at_app_l pre rest k : at_ (pre ++ rest) (List.length pre + k) = at_ rest k.
Proof. unfold at_. rewrite app_nth2 by lia. f_equal. f_equal. lia. Qed.

Lemma Uint16_app_l pre rest k : Uint16 (pre ++ rest) (List.length pre + k) = Uint16 rest k.
Proof.
  unfold Uint16. replace (S (List.length pre + k)) with (List.length pre + S k)%nat by lia.
  rewrite !at_app_l. reflexivity.
Qed.

Lemma Uint32_app_l pre rest k : Uint32 (pre ++ rest) (List.length pre + k) = Uint32 rest k.
Proof.
  unfold Uint32. rewrite <- !Nat.add_assoc, !at_app_l. reflexivity.
Qed.

Lemma at_app_lt data extra i : (i < List.length data)%nat -> at_ (data ++ extra) i = at_ data i.
Proof. intros H. unfold at_. rewrite app_nth1 by exact H. reflexivity. Qed.

Lemma Uint16_app_lt data extra i :
  (S i < List.length data)%nat -> Uint16 (data ++ extra) i = Uint16 data i.
Proof. intros H. unfold Uint16. rewrite !at_app_lt by lia. reflexivity. Qed.

Lemma Uint32_app_lt data extra i :
  (i + 3 < List.length data)%nat -> Uint32 (data ++ extra) i = Uint32 data i.
Proof. intros H. unfold Uint32. rewrite !at_app_lt by lia. reflexivity. Qed.

Lemma firstn_skipn_app_lt (data extra : list byte) a n :
  (a + n <= List.length data)%nat ->
  firstn n (skipn a (data ++ extra)) = firstn n (skipn a data).
Proof.
  intros H. rewrite skipn_app, firstn_app, length_skipn.
  replace (n - (List.length data - a))%nat with 0%nat by lia.
  rewrite app_nil_r. reflexivity.
Qed.

Lemma Uint16_PutUint16 v rest : v < 65536 -> Uint16 (PutUint16 v ++ rest) 0 = v.
Proof.
  intros Hv. unfold Uint16, PutUint16, at_. cbn [app nth].
  rewrite !byte_of_N_to_N. apply uint16_roundtrip. exact Hv.
Qed.

Lemma testbit_land255 x i : N.testbit (N.land x 255) i = (i <? 8) && N.testbit x i.
Proof.
  change 255 with (N.ones 8). rewrite N.land_spec, andb_comm.
  destruct (N.ltb_spec i 8).
  - rewrite N.ones_spec_low by lia. reflexivity.
  - rewrite N.ones_spec_high by lia. reflexivity.
Qed.

Lemma testbit_byte_field v k i :
  N.testbit (N.shiftl (N.land (N.shiftr v k) 255) k) i =
  (k <=? i) && (i <? k + 8) && N.testbit v i.
Proof.
  destruct (N.leb_spec k i).
  - rewrite N.shiftl_spec_high by lia. rewrite testbit_land255, N.shiftr_spec'.
    replace (i - k + k) with i by lia.
    destruct (N.ltb_spec (i - k) 8), (N.ltb_spec i (k + 8)); simpl; auto; lia.
  - rewrite N.shiftl_spec_low by lia. reflexivity.
Qed.

Lemma uint32_roundtrip v :
  v < 4294967296 ->
  N.lor (N.lor (N.land v 255) (N.shiftl (N.land (N.shiftr v 8) 255) 8))
        (N.lor (N.shiftl (N.land (N.shiftr v 16) 255) 16)
               (N.shiftl (N.land (N.shiftr v 24) 255) 24)) = v.
Proof.
  intros Hv.
  replace (N.land v 255) with (N.shiftl (N.land (N.shiftr v 0) 255) 0)
    by (rewrite N.shiftl_0_r, N.shiftr_0_r; reflexivity).
  apply N.bits_inj. intros i. rewrite !N.lor_spec, !testbit_byte_field.
  destruct (N.testbit v i) eqn:Hb; rewrite ?andb_true_r, ?andb_false_r; [|reflexivity].
  assert (Hi : i < 32).
  { destruct (N.ltb_spec i 32) as [|Hge]; auto.
    destruct (N.eq_dec v 0) as [->|Hnz]; [rewrite N.bits_0 in Hb; discriminate|].
    rewrite N.bits_above_log2 in Hb; [discriminate|].
    apply N.lt_le_trans with 32; auto.
    apply N.log2_lt_pow2; [lia|exact Hv]. }
  repeat match goal with
  | |- context [N.leb ?a ?b] => destruct (N.leb_spec a b)
  | |- context [N.ltb ?a ?b] => destruct (N.ltb_spec a b)
  end; simpl; try reflexivity; exfalso; lia.
Qed.

Lemma Uint32_PutUint32 v rest : v < 4294967296 -> Uint32 (PutUint32 v ++ rest) 0 = v.
Proof.
  intros Hv. unfold Uint32, PutUint32, at_. cbn [app nth Nat.add].
  rewrite !byte_of_N_to_N. apply uint32_roundtrip. exact Hv.
Qed.

(** ** Header bytes *)

Lemma byte_pair_check : check_upto 256 0 (fun x => check_upto 256 0 (byte_pair_ok x)) = true.
Proof. vm_compute. reflexivity. Qed.

Lemma flags_word_check : check_upto (N.to_nat 65536) 0 flags_word_ok = true.
Proof. vm_compute. reflexivity. Qed.

Lemma to_N_inj (a b : byte) : Byte.to_N a = Byte.to_N b -> a = b.
Proof.
  intros H. apply (f_equal Byte.of_N) in H. rewrite !Byte.of_to_N in H. congruence.
Qed.

Lemma byte_pair (b0 b1 : byte) :
  byte_pair_ok (Byte.to_N b0) (Byte.to_N b1) = true.
Proof.
  pose proof (Byte.to_N_bounded b0). pose proof (Byte.to_N_bounded b1).
  refine (check_upto_spec _ _ _
            (check_upto_spec _ _ _ byte_pair_check (Byte.to_N b0) _ _) _ _ _);
    simpl; lia.
Qed.

Lemma Uint16_lt data i : Uint16 data i < 65536.
Proof.
  pose proof (byte_pair (nth i data Byte.x00) (nth (S i) data Byte.x00)) as H.
  unfold byte_pair_ok in H. split_checks. exact H.
Qed.

Lemma PutUint16_Uint16 data i :
  PutUint16 (Uint16 data i) = [nth i data Byte.x00; nth (S i) data Byte.x00].
Proof.
  pose proof (byte_pair (nth i data Byte.x00) (nth (S i) data Byte.x00)) as H.
  unfold byte_pair_ok in H. split_checks.
  unfold PutUint16, Uint16, at_. f_equal; [|f_equal]; apply to_N_inj;
    rewrite byte_of_N_to_N; assumption.
Qed.

Lemma header_flags_of_word v :
  v < 65536 ->
  header_flags (mkHeader 0 (negb (N.land v 0x8000 =? 0)) (N.land (N.shiftr v 11) 0xF)
                  (negb (N.land v 0x0400 =? 0)) (negb (N.land v 0x0200 =? 0))
                  (negb (N.land v 0x0100 =? 0)) (negb (N.land v 0x0080 =? 0))
                  (N.land (N.shiftr v 4) 0x7) (N.land v 0xF) 0 0 0 0) = v.
Proof.
  intros Hv. apply N.eqb_eq.
  refine (check_upto_spec _ _ _ flags_word_check v _ _); [lia|].
  vm_compute (N.of_nat _). lia.
Qed.

Lemma header_flags_deserialize data : header_flags (deserializeHeader data) = Uint16 data 2.
Proof.
  rewrite header_flags_fields. apply header_flags_of_word, Uint16_lt.
Qed.

Lemma land_ones_lt x n : N.land x (N.ones n) < 2 ^ n.
Proof. rewrite N.land_ones. apply N.mod_lt. apply N.pow_nonzero. discriminate. Qed.

(** The header round trip of the packet codec, for use by other proofs. *)
Lemma header_roundtrip_ok (h : Header) :
  header_ok h -> deserializeHeader (serializeHeader h) = h.
Proof.
  intros (Hid & Hop & Hz & Hrc & Hqc & Hac & Hauc & Hadc).
  pose proof (flags_roundtrip (QR h) (AA h) (TC h) (RD h) (RA h) (OpCode h) (Z_ h)
                (ResponseCode h) Hop Hz Hrc) as Hf.
  rewrite <- header_flags_fields in Hf. cbv zeta in Hf.
  destruct Hf as (Hlt & Hqr & Hop' & Haa & Htc & Hrd & Hra & Hz' & Hrc').
  unfold deserializeHeader, serializeHeader, PutUint16, Uint16, at_.
  cbn [app nth]. rewrite !byte_of_N_to_N.
  rewrite !uint16_roundtrip by assumption.
  rewrite Hqr, Hop', Haa, Htc, Hrd, Hra, Hz', Hrc'.
  destruct h; reflexivity.
Qed.

Lemma serializeHeader_length h : List.length (serializeHeader h) = 12%nat.
Proof. reflexivity. Qed.

Lemma deserializeHeader_app data extra :
  (12 <= List.length data)%nat -> deserializeHeader (data ++ extra) = deserializeHeader data.
Proof.
  intros H. unfold deserializeHeader. rewrite !Uint16_app_lt by lia. reflexivity.
Qed.

Lemma firstn_12 (data : list byte) :
  (12 <= List.length data)%nat ->
  firstn 12 data =
  [nth 0 data Byte.x00; nth 1 data Byte.x00; nth 2 data Byte.x00; nth 3 data Byte.x00;
   nth 4 data Byte.x00; nth 5 data Byte.x00; nth 6 data Byte.x00; nth 7 data Byte.x00;
   nth 8 data Byte.x00; nth 9 data Byte.x00; nth 10 data Byte.x00; nth 11 data Byte.x00].
Proof.
  intros H. do 12 (destruct data as [|? data]; [simpl in H; lia|]). reflexivity.
Qed.

(** ** Name encoding *)

Lemma encode_labels_ret labels b :
  encode_labels labels = ret b ->
  Forall (fun l => (List.length l <= 63)%nat) labels /\ b = labels_wire labels.
Proof.
  revert b; induction labels as [|l ls IH]; intros b H.
  - injection H as <-. split; [constructor|reflexivity].
  - cbn [encode_labels] in H. destruct (Nat.ltb_spec 63 (List.length l)); [discriminate|].
    destruct (encode_labels ls) as [[tl|e]|] eqn:E; try discriminate.
    cbn [bind] in H. injection H as <-.
    destruct (IH tl eq_refl) as [Hf ->]. split; [constructor; auto|reflexivity].
Qed.

Lemma encode_labels_long labels :
  ~ Forall (fun l => (List.length l <= 63)%nat) labels ->
  encode_labels labels = raise ErrLabelTooLong.
Proof.
  induction labels as [|l ls IH]; intros Hn; [contradiction Hn; constructor|].
  cbn [encode_labels]. destruct (Nat.ltb_spec 63 (List.length l)); [reflexivity|].
  rewrite IH; [reflexivity|]. intros Hf. apply Hn. constructor; auto.
Qed.

Lemma encodeDomainName_ok name :
  Forall (fun l => (List.length l <= 63)%nat) (Split_dot name) ->
  encodeDomainName name = ret (labels_wire (Split_dot name) ++ [Byte.x00]).
Proof. intros H. unfold encodeDomainName. rewrite encode_labels_ok by exact H. reflexivity. Qed.

Lemma encodeDomainName_long name :
  ~ Forall (fun l => (List.length l <= 63)%nat) (Split_dot name) ->
  encodeDomainName name = raise ErrLabelTooLong.
Proof. intros H. unfold encodeDomainName. rewrite encode_labels_long by exact H. reflexivity. Qed.

Lemma encodeDomainName_ret name b :
  encodeDomainName name = ret b ->
  Forall (fun l => (List.length l <= 63)%nat) (Split_dot name) /\
  b = labels_wire (Split_dot name) ++ [Byte.x00].
Proof.
  unfold encodeDomainName. intros H.
  destruct (encode_labels (Split_dot name)) as [[buf|e]|] eqn:E; try discriminate.
  cbn [bind] in H. injection H as <-.
  destruct (encode_labels_ret _ _ E) as [Hf ->]. auto.
Qed.

Lemma labels_wire_join_length labels :
  labels <> [] -> List.length (labels_wire labels) = S (List.length (join_dot labels)).
Proof.
  induction labels as [|l ls IH]; intros Hne; [contradiction|].
  destruct ls as [|l' ls].
  - unfold labels_wire. simpl. rewrite app_nil_r. reflexivity.
  - change (labels_wire (l :: l' :: ls))
      with (byte_of_N (N.of_nat (List.length l)) :: l ++ labels_wire (l' :: ls)).
    change (join_dot (l :: l' :: ls)) with (l ++ dot :: join_dot (l' :: ls)).
    cbn [List.length]. rewrite !length_app, IH by discriminate. simpl. lia.
Qed.

Lemma name_ok_short name :
  name_ok name -> Forall (fun l => (List.length l <= 63)%nat) (Split_dot name).
Proof. apply Forall_impl. lia. Qed.

(** A well-formed name decoded where its encoding sits in a buffer. *)
Lemma decode_name_wire pre name suf :
  name_ok name ->
  decodeDomainName (pre ++ labels_wire (Split_dot name) ++ Byte.x00 :: suf) (List.length pre) =
  ret (name, S (List.length pre + List.length (labels_wire (Split_dot name)))).
Proof.
  intros Hok. unfold name_ok in Hok. set (labels := Split_dot name) in *.
  set (data := pre ++ labels_wire labels ++ Byte.x00 :: suf).
  assert (Hfuel : (S (List.length labels) <= decode_fuel maxJumps data)%nat).
  { pose proof (labels_wire_length labels).
    unfold decode_fuel, data. rewrite !length_app. simpl. nia. }
  pose proof (decode_loop_labels_wire maxJumps suf labels pre (decode_init (List.length pre)) 0
                Hok eq_refl (Nat.le_0_l _)) as H.
  fold data in H.
  apply (fun H => decode_loop_more_fuel _ _ _ (decode_fuel maxJumps data) _ _ H) in H; [|lia].
  unfold decodeDomainName. rewrite H.
  cbn [bind]. f_equal. f_equal.
  rewrite (decode_finish_labels _ labels) by reflexivity.
  cbn [st_offset]. f_equal.
  pose proof (Split_dot_not_nil name) as Hnn. fold labels in Hnn.
  pose proof (join_Split_dot name) as Hj. fold labels in Hj.
  destruct labels; [contradiction|]. exact Hj.
Qed.

Lemma Uint16_at (X rest : list byte) v k :
  v < 65536 -> k = List.length X -> Uint16 (X ++ PutUint16 v ++ rest) k = v.
Proof.
  intros Hv ->. rewrite <- (Nat.add_0_r (List.length X)), Uint16_app_l.
  apply Uint16_PutUint16, Hv.
Qed.

Lemma Uint32_at (X rest : list byte) v k :
  v < 4294967296 -> k = List.length X -> Uint32 (X ++ PutUint32 v ++ rest) k = v.
Proof.
  intros Hv ->. rewrite <- (Nat.add_0_r (List.length X)), Uint32_app_l.
  apply Uint32_PutUint32, Hv.
Qed.

Ltac app_norm := rewrite <- ?app_assoc; reflexivity.

Ltac len_tac :=
  unfold PutUint16, PutUint32;
  repeat ((rewrite length_app) || (progress cbn [List.length])); lia.

(** ** Question and resource-record round trips *)

Lemma question_roundtrip_aux q :
  question_ok q ->
  exists b, serializeQuestion q = ret b /\
    forall pre suf,
      deserializeQuestion (pre ++ b ++ suf) (List.length pre) =
      ret (q, (List.length pre + List.length b)%nat).
Proof.
  intros (Hn & Ht & Hc).
  set (W := labels_wire (Split_dot (QName q))).
  exists ((W ++ [Byte.x00]) ++ PutUint16 (QType q) ++ PutUint16 (QClass q)). split.
  - unfold serializeQuestion. rewrite encodeDomainName_ok by (apply name_ok_short; exact Hn).
    reflexivity.
  - intros pre suf. unfold deserializeQuestion.
    replace (pre ++ ((W ++ [Byte.x00]) ++ PutUint16 (QType q) ++ PutUint16 (QClass q)) ++ suf)
      with (pre ++ W ++ Byte.x00 :: (PutUint16 (QType q) ++ PutUint16 (QClass q) ++ suf))
      by app_norm.
    unfold W. rewrite decode_name_wire by exact Hn. fold W. cbn [bind ret].
    set (data := pre ++ W ++ Byte.x00 :: (PutUint16 (QType q) ++ PutUint16 (QClass q) ++ suf)).
    assert (Hlen : List.length data = (List.length pre + List.length W + 5 + List.length suf)%nat).
    { unfold data. len_tac. }
    rewrite (proj2 (Nat.ltb_ge _ _)) by lia.
    replace data with ((pre ++ W ++ [Byte.x00]) ++ PutUint16 (QType q) ++
                       (PutUint16 (QClass q) ++ suf)) by (unfold data; app_norm).
    rewrite Uint16_at by (auto; len_tac).
    replace ((pre ++ W ++ [Byte.x00]) ++ PutUint16 (QType q) ++ (PutUint16 (QClass q) ++ suf))
      with ((pre ++ W ++ [Byte.x00] ++ PutUint16 (QType q)) ++ PutUint16 (QClass q) ++ suf)
      by app_norm.
    rewrite Uint16_at by (auto; len_tac).
    f_equal. f_equal; [destruct q; reflexivity|].
    len_tac.
Qed.

Lemma rr_roundtrip_aux rr :
  rr_ok rr ->
  exists b, serializeResourceRecord rr = ret b /\
    forall pre suf,
      deserializeResourceRecord (pre ++ b ++ suf) (List.length pre) =
      ret (rr, (List.length pre + List.length b)%nat).
Proof.
  intros (Hn & Ht & Hc & Httl & Hl & Hd).
  set (W := labels_wire (Split_dot (RRName rr))).
  set (F := PutUint16 (RRType rr) ++ PutUint16 (RRClass rr) ++
            PutUint32 (TTL rr) ++ PutUint16 (RDLength rr)).
  exists ((W ++ [Byte.x00]) ++ F ++ RData rr). split.
  - unfold serializeResourceRecord. rewrite encodeDomainName_ok by (apply name_ok_short; exact Hn).
    reflexivity.
  - intros pre suf. unfold deserializeResourceRecord.
    replace (pre ++ ((W ++ [Byte.x00]) ++ F ++ RData rr) ++ suf)
      with (pre ++ W ++ Byte.x00 :: (F ++ RData rr ++ suf)) by app_norm.
    unfold W. rewrite decode_name_wire by exact Hn. fold W. cbn [bind ret]. cbv zeta.
    set (data := pre ++ W ++ Byte.x00 :: (F ++ RData rr ++ suf)).
    set (X := pre ++ W ++ [Byte.x00]).
    assert (HX : List.length X = S (List.length pre + List.length W)) by (unfold X; len_tac).
    assert (Hlen : List.length data =
                   (List.length X + 10 + List.length (RData rr) + List.length suf)%nat).
    { unfold data, F. rewrite HX. len_tac. }
    rewrite (proj2 (Nat.ltb_ge _ _)) by lia.
    assert (Ht' : Uint16 data (S (List.length pre + List.length W)) = RRType rr).
    { replace data with (X ++ PutUint16 (RRType rr) ++
                         (PutUint16 (RRClass rr) ++ PutUint32 (TTL rr) ++
                          PutUint16 (RDLength rr) ++ RData rr ++ suf))
        by (unfold data, X, F; app_norm).
      apply Uint16_at; auto. }
    assert (Hc' : Uint16 data (S (List.length pre + List.length W) + 2) = RRClass rr).
    { replace data with ((X ++ PutUint16 (RRType rr)) ++ PutUint16 (RRClass rr) ++
                         (PutUint32 (TTL rr) ++ PutUint16 (RDLength rr) ++ RData rr ++ suf))
        by (unfold data, X, F; app_norm).
      apply Uint16_at; auto. rewrite length_app, HX. reflexivity. }
    assert (Httl' : Uint32 data (S (List.length pre + List.length W) + 4) = TTL rr).
    { replace data with ((X ++ PutUint16 (RRType rr) ++ PutUint16 (RRClass rr)) ++
                         PutUint32 (TTL rr) ++ (PutUint16 (RDLength rr) ++ RData rr ++ suf))
        by (unfold data, X, F; app_norm).
      apply Uint32_at; auto. rewrite !length_app, HX. reflexivity. }
    assert (Hl' : Uint16 data (S (List.length pre + List.length W) + 8) = RDLength rr).
    { replace data with ((X ++ PutUint16 (RRType rr) ++ PutUint16 (RRClass rr) ++
                          PutUint32 (TTL rr)) ++
                         PutUint16 (RDLength rr) ++ (RData rr ++ suf))
        by (unfold data, X, F; app_norm).
      apply Uint16_at; auto. rewrite !length_app, HX. reflexivity. }
    rewrite Ht', Hc', Httl', Hl'.
    rewrite (proj2 (Nat.ltb_ge _ _)) by lia.
    assert (Hr : firstn (N.to_nat (RDLength rr))
                   (skipn (S (List.length pre + List.length W) + 10) data) = RData rr).
    { replace data with ((X ++ F) ++ RData rr ++ suf) by (unfold data, X; app_norm).
      assert (HXF : List.length (X ++ F) = (S (List.length pre + List.length W) + 10)%nat)
        by (rewrite length_app, HX; unfold F; len_tac).
      rewrite <- HXF.
      rewrite skipn_length_app, <- Hd. apply firstn_length_app. }
    rewrite Hr. f_equal. f_equal; [destruct rr; reflexivity|].
    unfold F. rewrite <- Hd. len_tac.
Qed.

Lemma section_roundtrip_aux rrs :
  Forall rr_ok rrs ->
  exists b, serialize_section rrs = ret b /\
    forall pre suf,
      deserialize_section (List.length rrs) (pre ++ b ++ suf) (List.length pre) =
      ret (rrs, (List.length pre + List.length b)%nat).
Proof.
  induction 1 as [|rr rrs Hrr _ IH].
  - exists []. split; [reflexivity|]. intros pre suf. simpl. rewrite Nat.add_0_r. reflexivity.
  - destruct (rr_roundtrip_aux rr Hrr) as (b1 & Hs1 & Hd1).
    destruct IH as (b2 & Hs2 & Hd2).
    exists (b1 ++ b2). split.
    + cbn [serialize_section]. rewrite Hs1, Hs2. reflexivity.
    + intros pre suf. cbn [deserialize_section List.length].
      rewrite <- app_assoc, Hd1. cbn [bind ret].
      replace (pre ++ b1 ++ b2 ++ suf) with ((pre ++ b1) ++ b2 ++ suf) by app_norm.
      replace (List.length pre + List.length b1)%nat with (List.length (pre ++ b1))
        by apply length_app.
      rewrite Hd2. cbn [bind ret]. rewrite !length_app, Nat.add_assoc. reflexivity.
Qed.

(** The packet round trip, for use by other proofs. *)
Lemma packet_roundtrip_aux p :
  packet_ok p ->
  exists b, Serialize p = ret b /\ forall suf, Deserialize (b ++ suf) = ret p.
Proof.
  intros (Hh & Hq & Hrrs & Hac & Hauc & Hadc).
  apply Forall_app in Hrrs as [Ha Hrrs]. apply Forall_app in Hrrs as [Hu Hd].
  destruct (question_roundtrip_aux _ Hq) as (qb & Hsq & Hdq).
  destruct (section_roundtrip_aux _ Ha) as (ab & Hsa & Hda).
  destruct (section_roundtrip_aux _ Hu) as (ub & Hsu & Hdu).
  destruct (section_roundtrip_aux _ Hd) as (db & Hsd & Hdd).
  set (hb := serializeHeader (PHeader p)).
  exists (hb ++ qb ++ ab ++ ub ++ db). split.
  - unfold Serialize. rewrite Hsq, Hsa, Hsu, Hsd. reflexivity.
  - intros suf. unfold Deserialize.
    rewrite (proj2 (Nat.ltb_ge _ _)) by (rewrite !length_app; unfold hb;
                                         rewrite serializeHeader_length; lia).
    cbv zeta.
    replace ((hb ++ qb ++ ab ++ ub ++ db) ++ suf) with (hb ++ (qb ++ ab ++ ub ++ db ++ suf))
      by app_norm.
    rewrite deserializeHeader_app by (unfold hb; rewrite serializeHeader_length; lia).
    unfold hb. rewrite header_roundtrip_ok by exact Hh. fold hb.
    change 12%nat with (List.length hb).
    rewrite Hdq. cbn [bind ret].
    rewrite Hac.
    replace (hb ++ qb ++ ab ++ ub ++ db ++ suf) with ((hb ++ qb) ++ ab ++ (ub ++ db ++ suf))
      by app_norm.
    rewrite <- length_app, Hda. cbn [bind ret].
    rewrite Hauc.
    replace ((hb ++ qb) ++ ab ++ ub ++ db ++ suf) with (((hb ++ qb) ++ ab) ++ ub ++ (db ++ suf))
      by app_norm.
    rewrite <- length_app, Hdu. cbn [bind ret].
    rewrite Hadc.
    replace (((hb ++ qb) ++ ab) ++ ub ++ db ++ suf) with ((((hb ++ qb) ++ ab) ++ ub) ++ db ++ suf)
      by app_norm.
    rewrite <- length_app, Hdd. cbn [bind ret].
    destruct p; reflexivity.
Qed.

(** ** What Serialize checks, and the size of its output *)

Lemma encodeDomainName_length name b :
  encodeDomainName name = ret b -> List.length b = (List.length name + 2)%nat.
Proof.
  intros H. apply encodeDomainName_ret in H as [_ ->].
  rewrite length_app, labels_wire_join_length by apply Split_dot_not_nil.
  rewrite join_Split_dot. simpl. lia.
Qed.

Lemma serializeResourceRecord_length rr b :
  serializeResourceRecord rr = ret b -> List.length b = rr_size rr.
Proof.
  unfold serializeResourceRecord, rr_size. intros H.
  destruct (encodeDomainName (RRName rr)) as [[nb|e]|] eqn:E; try discriminate.
  cbn [bind] in H. injection H as <-. apply encodeDomainName_length in E.
  rewrite !length_app, E. unfold PutUint16, PutUint32. simpl. lia.
Qed.

Lemma concat_length_rr rrs bs :
  Forall2 (fun rr b => serializeResourceRecord rr = ret b) rrs bs ->
  List.length (concat bs) = list_sum (map rr_size rrs).
Proof.
  induction 1 as [|rr b rrs bs Hb _ IH]; [reflexivity|].
  simpl. rewrite length_app, IH, (serializeResourceRecord_length _ _ Hb). reflexivity.
Qed.

Lemma serialize_section_long rrs :
  ~ Forall (fun n => Forall (fun l => (List.length l <= 63)%nat) (Split_dot n))
      (map RRName rrs) ->
  serialize_section rrs = raise ErrLabelTooLong.
Proof.
  induction rrs as [|rr rrs IH]; intros Hn; [contradiction Hn; constructor|].
  cbn [serialize_section]. unfold serializeResourceRecord at 1.
  destruct (Forall_dec (fun l => (List.length l <= 63)%nat)
              (fun l => le_dec (List.length l) 63) (Split_dot (RRName rr))) as [Hs|Hs].
  - rewrite encodeDomainName_ok by exact Hs. cbn [bind ret].
    rewrite IH; [reflexivity|]. intros Hf. apply Hn. constructor; auto.
  - rewrite encodeDomainName_long by exact Hs. reflexivity.
Qed.

Lemma serialize_section_short rrs :
  Forall (fun n => Forall (fun l => (List.length l <= 63)%nat) (Split_dot n)) (map RRName rrs) ->
  exists b, serialize_section rrs = ret b.
Proof.
  induction rrs as [|rr rrs IH]; intros Hf; [eexists; reflexivity|].
  inversion Hf as [|? ? Hrr Hrrs]; subst.
  destruct (IH Hrrs) as [b Hb].
  cbn [serialize_section]. unfold serializeResourceRecord at 1.
  rewrite encodeDomainName_ok by exact Hrr. cbn [bind ret]. rewrite Hb.
  eexists; reflexivity.
Qed.

(** ** Outcomes of the name decoder *)

Lemma decode_step_break_offset m data s s' :
  decode_step m data s = Break s' -> (1 <= st_offset s' <= List.length data)%nat.
Proof.
  step_cases; intros H; try discriminate. injection H as <-.
  apply Nat.leb_gt in E0. simpl. lia.
Qed.

Lemma decode_step_fail_error m data s e :
  decode_step m data s = Fail e -> e = ErrBufferOverflow \/ e = ErrTooManyJumps.
Proof. step_cases; intros H; try discriminate; injection H as <-; auto. Qed.

Lemma decode_loop_outcome m data f s :
  match decode_loop m data f s with
  | Some (Ok r) => (1 <= st_offset r <= List.length data)%nat
  | Some (Err e) => e = ErrBufferOverflow \/ e = ErrTooManyJumps
  | None => True
  end.
Proof.
  revert s; induction f as [|f IH]; intros s; [exact I|].
  rewrite decode_loop_S.
  destruct (decode_step m data s) as [s'|s'|e] eqn:Hs.
  - apply IH.
  - exact (decode_step_break_offset _ _ _ _ Hs).
  - exact (decode_step_fail_error _ _ _ _ Hs).
Qed.

Lemma decodeDomainName_cases data offset :
  (exists name cursor, decodeDomainName data offset = ret (name, cursor) /\
                       (1 <= cursor <= List.length data)%nat) \/
  decodeDomainName data offset = raise ErrBufferOverflow \/
  decodeDomainName data offset = raise ErrTooManyJumps.
Proof.
  pose proof (decode_loop_outcome maxJumps data (decode_fuel maxJumps data)
                (decode_init offset)) as Ho.
  destruct (decode_loop_total maxJumps data (decode_fuel maxJumps data)
              (decode_init offset) (decode_fuel_enough maxJumps data offset))
    as [r Hr].
  unfold decodeDomainName. rewrite Hr in *. cbn [bind]. destruct r as [st|e].
  - left. exists (fst (decode_finish st)), (snd (decode_finish st)).
    split; [destruct (decode_finish st); reflexivity|].
    unfold decode_finish. destruct (st_name st); exact Ho.
  - right. destruct Ho as [-> | ->]; auto.
Qed.

Lemma read_ok_bind {A B} (m : M A) (k : A -> M B) :
  read_ok m -> (forall a, read_ok (k a)) -> read_ok (bind m k).
Proof. destruct m as [[a|e]|]; simpl; auto. Qed.

Lemma read_ok_decodeDomainName data offset : read_ok (decodeDomainName data offset).
Proof.
  destruct (decodeDomainName_cases data offset) as [(n & c & -> & _)|[-> | ->]];
    simpl; auto.
Qed.

Lemma read_ok_deserializeQuestion data offset : read_ok (deserializeQuestion data offset).
Proof.
  unfold deserializeQuestion. apply read_ok_bind; [apply read_ok_decodeDomainName|].
  intros [n o]. destruct (Nat.ltb _ _); simpl; auto.
Qed.

Lemma read_ok_deserializeResourceRecord data offset :
  read_ok (deserializeResourceRecord data offset).
Proof.
  unfold deserializeResourceRecord. apply read_ok_bind; [apply read_ok_decodeDomainName|].
  intros [n o]. cbv zeta. destruct (Nat.ltb _ _); [simpl; auto|].
  destruct (Nat.ltb _ _); simpl; auto.
Qed.

Lemma read_ok_deserialize_section n data offset :
  read_ok (deserialize_section n data offset).
Proof.
  revert offset; induction n as [|n IH]; intros offset; [exact I|].
  cbn [deserialize_section]. apply read_ok_bind; [apply read_ok_deserializeResourceRecord|].
  intros [rr o]. apply read_ok_bind; [apply IH|]. intros [rrs o']. exact I.
Qed.

Lemma read_ok_Deserialize data : read_ok (Deserialize data).
Proof.
  unfold Deserialize. destruct (Nat.ltb _ _); [simpl; auto|]. cbv zeta.
  apply read_ok_bind; [apply read_ok_deserializeQuestion|]. intros [q o1].
  apply read_ok_bind; [apply read_ok_deserialize_section|]. intros [a o2].
  apply read_ok_bind; [apply read_ok_deserialize_section|]. intros [u o3].
  apply read_ok_bind; [apply read_ok_deserialize_section|]. intros [d o4].
  exact I.
Qed.

(** ** Bytes after the message are not read *)

Lemma decode_step_app_ext m data extra s :
  (exists e, decode_step m data s = Fail e) \/
  decode_step m (data ++ extra) s = decode_step m data s.
Proof.
  destruct (Nat.ltb_spec m (st_jumps s)) as [Hj|Hj].
  { left. exists ErrTooManyJumps. unfold decode_step.
    rewrite (proj2 (Nat.ltb_lt _ _) Hj). reflexivity. }
  destruct (Nat.leb_spec (List.length data) (st_offset s)) as [Ho|Ho].
  { left. exists ErrBufferOverflow. unfold decode_step.
    rewrite (proj2 (Nat.ltb_ge _ _) Hj), (proj2 (Nat.leb_le _ _) Ho). reflexivity. }
  assert (Ha : at_ (data ++ extra) (st_offset s) = at_ data (st_offset s))
    by (apply at_app_lt; lia).
  assert (Hlen : List.length (data ++ extra) = (List.length data + List.length extra)%nat)
    by apply length_app.
  destruct (N.eqb_spec (at_ data (st_offset s)) 0) as [Hz|Hz].
  { right. rewrite (decode_step_zero m (data ++ extra)), (decode_step_zero m data);
      auto; try lia; try (rewrite Ha; exact Hz). }
  destruct (N.eqb_spec (N.land (at_ data (st_offset s)) 0xC0) 0xC0) as [Hp|Hp].
  - destruct (Nat.leb_spec (List.length data) (S (st_offset s))) as [Ho2|Ho2].
    + left. exists ErrBufferOverflow. unfold decode_step. cbv zeta.
      rewrite (proj2 (Nat.ltb_ge _ _) Hj), (proj2 (Nat.leb_gt _ _) Ho).
      rewrite (proj2 (N.eqb_neq _ _) Hz), Hp, N.eqb_refl, (proj2 (Nat.leb_le _ _) Ho2).
      reflexivity.
    + right. rewrite (decode_step_pointer m (data ++ extra)), (decode_step_pointer m data);
        auto; try lia; [|rewrite Ha; exact Hp].
      rewrite Uint16_app_lt by lia. reflexivity.
  - destruct (Nat.leb_spec (S (st_offset s) + N.to_nat (at_ data (st_offset s)))
                (List.length data)) as [Hl|Hl].
    + right. rewrite (decode_step_label m (data ++ extra)), (decode_step_label m data);
        rewrite ?Ha; auto; try lia.
      rewrite firstn_skipn_app_lt by lia. reflexivity.
    + left. exists ErrBufferOverflow. unfold decode_step. cbv zeta.
      rewrite (proj2 (Nat.ltb_ge _ _) Hj), (proj2 (Nat.leb_gt _ _) Ho).
      rewrite (proj2 (N.eqb_neq _ _) Hz), (proj2 (N.eqb_neq _ _) Hp),
        (proj2 (Nat.ltb_lt _ _) Hl).
      reflexivity.
Qed.

Lemma decode_loop_app m data extra f s r :
  decode_loop m data f s = ret r -> decode_loop m (data ++ extra) f s = ret r.
Proof.
  revert s; induction f as [|f IH]; intros s H; [discriminate|].
  rewrite decode_loop_S in *.
  destruct (decode_step_app_ext m data extra s) as [[e He]|He].
  - rewrite He in H. discriminate.
  - rewrite He. destruct (decode_step m data s); auto.
Qed.

Lemma decodeDomainName_app_aux data extra offset r :
  decodeDomainName data offset = ret r -> decodeDomainName (data ++ extra) offset = ret r.
Proof.
  unfold decodeDomainName. intros H.
  destruct (decode_loop maxJumps data (decode_fuel maxJumps data) (decode_init offset))
    as [[st|e]|] eqn:E; try discriminate.
  apply (decode_loop_app _ _ extra) in E.
  apply (fun E => decode_loop_more_fuel _ _ _ (decode_fuel maxJumps (data ++ extra)) _ _ E)
    in E.
  - rewrite E. exact H.
  - unfold decode_fuel. rewrite length_app. nia.
Qed.

Lemma deserializeQuestion_app data extra offset r :
  deserializeQuestion data offset = ret r -> deserializeQuestion (data ++ extra) offset = ret r.
Proof.
  unfold deserializeQuestion. intros H.
  destruct (decodeDomainName data offset) as [[[n o]|e]|] eqn:E; try discriminate.
  rewrite (decodeDomainName_app_aux _ extra _ _ E). cbn [bind ret] in *.
  revert H. destruct (Nat.ltb_spec (List.length data) (o + 4)); [discriminate|].
  rewrite (proj2 (Nat.ltb_ge _ _)) by (rewrite length_app; lia).
  rewrite !Uint16_app_lt by lia. auto.
Qed.

Lemma deserializeResourceRecord_app data extra offset r :
  deserializeResourceRecord data offset = ret r ->
  deserializeResourceRecord (data ++ extra) offset = ret r.
Proof.
  unfold deserializeResourceRecord. intros H.
  destruct (decodeDomainName data offset) as [[[n o]|e]|] eqn:E; try discriminate.
  rewrite (decodeDomainName_app_aux _ extra _ _ E). cbn [bind ret] in *. cbv zeta in *.
  revert H. destruct (Nat.ltb_spec (List.length data) (o + 10)); [discriminate|].
  rewrite (proj2 (Nat.ltb_ge (List.length (data ++ extra)) (o + 10)))
    by (rewrite length_app; lia).
  rewrite (Uint16_app_lt _ _ (o + 8)) by lia.
  destruct (Nat.ltb_spec (List.length data) (o + 10 + N.to_nat (Uint16 data (o + 8))));
    [discriminate|].
  rewrite (proj2 (Nat.ltb_ge _ _)) by (rewrite length_app; lia).
  rewrite !Uint16_app_lt, Uint32_app_lt, firstn_skipn_app_lt by lia. auto.
Qed.

Lemma deserialize_section_app n data extra offset r :
  deserialize_section n data offset = ret r ->
  deserialize_section n (data ++ extra) offset = ret r.
Proof.
  revert offset r; induction n as [|n IH]; intros offset r H; [exact H|].
  cbn [deserialize_section] in *.
  destruct (deserializeResourceRecord data offset) as [[[rr o]|e]|] eqn:E1; try discriminate.
  rewrite (deserializeResourceRecord_app _ extra _ _ E1). cbn [bind ret] in *.
  destruct (deserialize_section n data o) as [[[rrs o']|e]|] eqn:E2; try discriminate.
  rewrite (IH _ _ E2). exact H.
Qed.

Lemma Deserialize_app_aux data extra p :
  Deserialize data = ret p -> Deserialize (data ++ extra) = ret p.
Proof.
  unfold Deserialize. intros H.
  revert H. destruct (Nat.ltb_spec (List.length data) 12); [discriminate|].
  rewrite (proj2 (Nat.ltb_ge _ _)) by (rewrite length_app; lia). cbv zeta.
  rewrite deserializeHeader_app by lia.
  destruct (deserializeQuestion data 12) as [[[q o1]|e]|] eqn:E1; try discriminate.
  rewrite (deserializeQuestion_app _ extra _ _ E1). cbn [bind ret].
  destruct (deserialize_section _ data o1) as [[[a o2]|e]|] eqn:E2; try discriminate.
  rewrite (deserialize_section_app _ _ extra _ _ E2). cbn [bind ret].
  destruct (deserialize_section _ data o2) as [[[u o3]|e]|] eqn:E3; try discriminate.
  rewrite (deserialize_section_app _ _ extra _ _ E3). cbn [bind ret].
  destruct (deserialize_section _ data o3) as [[[d o4]|e]|] eqn:E4; try discriminate.
  rewrite (deserialize_section_app _ _ extra _ _ E4). cbn [bind ret]. auto.
Qed.

Lemma short_name_dec n :
  {Forall (fun l => (List.length l <= 63)%nat) (Split_dot n)} +
  {~ Forall (fun l => (List.length l <= 63)%nat) (Split_dot n)}.
Proof. apply Forall_dec. intros l. apply le_dec. Defined.

Lemma short_names_dec ns :
  {Forall (fun n => Forall (fun l => (List.length l <= 63)%nat) (Split_dot n)) ns} +
  {~ Forall (fun n => Forall (fun l => (List.length l <= 63)%nat) (Split_dot n)) ns}.
Proof. apply Forall_dec. apply short_name_dec. Defined.

(** ** Properties of the encoder *)


(** A successful [encodeDomainName] writes exactly two bytes more than the
    name has: one length byte per label in place of each ['.'], one more
    length byte and the final zero. *)
Theorem encodeDomainName_size (name enc : gostring) :
  encodeDomainName name = ret enc -> List.length enc = (List.length name + 2)%nat.
Proof. apply encodeDomainName_length. Qed.

(** [Serialize] fails, with "label too long", exactly when the question
    name or the name of a record has a label longer than 63 bytes; every
    other packet serializes, whatever its counts, RDLength and RDATA. *)
Theorem Serialize_label_check (p : Packet) :
  (Forall (fun n => Forall (fun l => (List.length l <= 63)%nat) (Split_dot n))
     (packet_names p) ->
   exists b, Serialize p = ret b) /\
  (~ Forall (fun n => Forall (fun l => (List.length l <= 63)%nat) (Split_dot n))
       (packet_names p) ->
   Serialize p = raise ErrLabelTooLong).
Proof.
  unfold packet_names. rewrite !map_app. split.
  - intros Hf. inversion Hf as [|? ? Hq Hr]; subst.
    apply Forall_app in Hr as [Ha Hr]. apply Forall_app in Hr as [Hu Hd].
    destruct (serialize_section_short _ Ha) as [ab Ea].
    destruct (serialize_section_short _ Hu) as [ub Eu].
    destruct (serialize_section_short _ Hd) as [db Ed].
    unfold Serialize, serializeQuestion. rewrite encodeDomainName_ok by exact Hq.
    cbn [bind ret]. rewrite Ea, Eu, Ed. eexists; reflexivity.
  - intros Hn. unfold Serialize, serializeQuestion. cbv zeta.
    destruct (short_name_dec (QName (PQuestion p))) as [Hq|Hq];
      [|rewrite encodeDomainName_long by exact Hq; reflexivity].
    rewrite encodeDomainName_ok by exact Hq. cbn [bind ret].
    destruct (short_names_dec (map RRName (Answer p))) as [Ha|Ha];
      [|rewrite serialize_section_long by exact Ha; reflexivity].
    destruct (serialize_section_short _ Ha) as [ab ->]. cbn [bind ret].
    destruct (short_names_dec (map RRName (Authority p))) as [Hu|Hu];
      [|rewrite serialize_section_long by exact Hu; reflexivity].
    destruct (serialize_section_short _ Hu) as [ub ->]. cbn [bind ret].
    destruct (short_names_dec (map RRName (Additional p))) as [Hd|Hd];
      [|rewrite serialize_section_long by exact Hd; reflexivity].
    exfalso. apply Hn. constructor; [exact Hq|].
    repeat (apply Forall_app; split); assumption.
Qed.

(** The size of a serialized packet: the 12 header bytes, the question
    name plus 2 and its 4 bytes of type and class, and for each record its
    name plus 2, 10 bytes of fixed fields and its RDATA as given. *)
Theorem Serialize_size (p : Packet) (b : list byte) :
  Serialize p = ret b ->
  List.length b =
  (12 + (List.length (QName (PQuestion p)) + 2 + 4) +
   list_sum (map rr_size (Answer p ++ Authority p ++ Additional p)))%nat.
Proof.
  intros H. unfold Serialize in H. cbv zeta in H.
  set (hb := serializeHeader (PHeader p)) in H.
  assert (Hhb : List.length hb = 12%nat) by apply serializeHeader_length.
  clearbody hb.
  destruct (serializeQuestion (PQuestion p)) as [[qb|e]|] eqn:Eq; try discriminate.
  cbn [bind] in H.
  destruct (serialize_section (Answer p)) as [[ab|e]|] eqn:Ea; try discriminate.
  cbn [bind] in H.
  destruct (serialize_section (Authority p)) as [[ub|e]|] eqn:Eu; try discriminate.
  cbn [bind] in H.
  destruct (serialize_section (Additional p)) as [[db|e]|] eqn:Ed; try discriminate.
  cbn [bind] in H. injection H as <-.
  apply serialize_section_inv in Ea as (abs & Ha & ->), Eu as (ubs & Hu & ->),
    Ed as (dbs & Hd & ->).
  unfold serializeQuestion in Eq.
  destruct (encodeDomainName (QName (PQuestion p))) as [[nb|e]|] eqn:En; try discriminate.
  cbn [bind] in Eq. injection Eq as <-. apply encodeDomainName_length in En.
  rewrite !map_app, !list_sum_app, !length_app, En,
    (concat_length_rr _ _ Ha), (concat_length_rr _ _ Hu), (concat_length_rr _ _ Hd).
  rewrite Hhb. unfold PutUint16. simpl. lia.
Qed.

(** ** Properties of the header codec *)

(** Every header [Deserialize] reads has its fields in their bit ranges. *)
Theorem deserializeHeader_in_range (data : list byte) : header_ok (deserializeHeader data).
Proof.
  unfold header_ok, deserializeHeader; cbn [ID OpCode Z_ ResponseCode QuestionCount
    AnswerCount AuthorityCount AdditionalCount].
  change 0xF with (N.ones 4). change 0x7 with (N.ones 3).
  repeat split; try apply Uint16_lt; apply land_ones_lt.
Qed.

(** Packing a header read from a buffer of at least 12 bytes gives back
    the buffer's first 12 bytes: every bit of the flags word belongs to one
    field. *)
Theorem header_bytes_roundtrip (data : list byte) :
  (12 <= List.length data)%nat ->
  serializeHeader (deserializeHeader data) = firstn 12 data.
Proof.
  intros H. rewrite firstn_12 by exact H.
  unfold serializeHeader. rewrite header_flags_deserialize.
  unfold deserializeHeader; cbn [ID QuestionCount AnswerCount AuthorityCount AdditionalCount].
  rewrite !PutUint16_Uint16. reflexivity.
Qed.

(** ** Round trips inside a message *)

(** A name whose labels are 1 to 63 bytes long encodes, and its encoding,
    wherever it sits in a buffer, decodes to the name with the cursor just
    after it. *)
Theorem name_roundtrip_in_buffer (name : gostring) :
  name_ok name ->
  exists enc, encodeDomainName name = ret enc /\
    forall pre suf,
      decodeDomainName (pre ++ enc ++ suf) (List.length pre) =
      ret (name, (List.length pre + List.length enc)%nat).
Proof.
  intros Hok. exists (labels_wire (Split_dot name) ++ [Byte.x00]). split.
  - apply encodeDomainName_ok, name_ok_short, Hok.
  - intros pre suf. rewrite <- app_assoc. cbn [app].
    rewrite decode_name_wire by exact Hok. rewrite length_app. simpl. repeat f_equal. lia.
Qed.

(** A question with a well-formed name and 16-bit type and class
    serializes, and [deserializeQuestion] reads it back, at any position of
    a buffer, returning the offset just after it. *)
Theorem question_roundtrip (q : Question) :
  question_ok q ->
  exists b, serializeQuestion q = ret b /\
    forall pre suf,
      deserializeQuestion (pre ++ b ++ suf) (List.length pre) =
      ret (q, (List.length pre + List.length b)%nat).
Proof. apply question_roundtrip_aux. Qed.

(** A record with a well-formed name, fields in range and RDLength equal
    to the length of its RDATA serializes, and [deserializeResourceRecord]
    reads it back, at any position of a buffer, returning the offset just
    after it. *)
Theorem resource_record_roundtrip (rr : ResourceRecord) :
  rr_ok rr ->
  exists b, serializeResourceRecord rr = ret b /\
    forall pre suf,
      deserializeResourceRecord (pre ++ b ++ suf) (List.length pre) =
      ret (rr, (List.length pre + List.length b)%nat).
Proof. apply rr_roundtrip_aux. Qed.

(** A packet whose header fields are in range, whose record counts are the
    lengths of its sections, and whose question and records are well formed
    serializes, and [Deserialize] gives it back, also with any bytes
    appended after the message. *)
Theorem packet_roundtrip (p : Packet) :
  packet_ok p ->
  exists b, Serialize p = ret b /\ forall suf, Deserialize (b ++ suf) = ret p.
Proof. apply packet_roundtrip_aux. Qed.

(** ** Properties of the decoders *)

(** [decodeDomainName] either returns a name with a cursor between 1 and
    the buffer length, or fails with "buffer overflow" or "too many jumps". *)
Theorem decodeDomainName_outcomes (data : list byte) (offset : nat) :
  (exists name cursor, decodeDomainName data offset = ret (name, cursor) /\
                       (1 <= cursor <= List.length data)%nat) \/
  decodeDomainName data offset = raise ErrBufferOverflow \/
  decodeDomainName data offset = raise ErrTooManyJumps.
Proof. apply decodeDomainName_cases. Qed.

(** [Deserialize] always returns: a packet, or "packet too short",
    "buffer overflow" or "too many jumps"; never "label too long". *)
Theorem Deserialize_outcomes (data : list byte) :
  (exists p, Deserialize data = ret p) \/
  Deserialize data = raise ErrPacketTooShort \/
  Deserialize data = raise ErrBufferOverflow \/
  Deserialize data = raise ErrTooManyJumps.
Proof.
  pose proof (read_ok_Deserialize data) as H.
  destruct (Deserialize data) as [[p|e]|]; [left; eexists; reflexivity| |contradiction].
  right. destruct H as [-> | [-> | ->]]; auto.
Qed.

(** A buffer of fewer than 12 bytes fails with "packet too short"; a buffer
    of exactly 12 bytes, a header with no question after it, fails with
    "buffer overflow" when the question name is read. *)
Theorem Deserialize_short (data : list byte) :
  ((List.length data < 12)%nat -> Deserialize data = raise ErrPacketTooShort) /\
  (List.length data = 12%nat -> Deserialize data = raise ErrBufferOverflow).
Proof.
  split; intros H; unfold Deserialize.
  - rewrite (proj2 (Nat.ltb_lt _ _) H). reflexivity.
  - rewrite H. cbv zeta. cbn [Nat.ltb Nat.leb].
    unfold deserializeQuestion, decodeDomainName.
    replace (decode_fuel maxJumps data) with (S 90) by (unfold decode_fuel; rewrite H; reflexivity).
    rewrite decode_loop_S. unfold decode_step. rewrite H. reflexivity.
Qed.

(** Bytes after a name that decodes are not read: decoding the same
    offset in the buffer with anything appended gives the same name and
    cursor. *)
Theorem decodeDomainName_app (data extra : list byte) (offset : nat) r :
  decodeDomainName data offset = ret r -> decodeDomainName (data ++ extra) offset = ret r.
Proof. apply decodeDomainName_app_aux. Qed.

(** Bytes after a message that deserializes are ignored: the same buffer
    with anything appended deserializes to the same packet. *)
Theorem Deserialize_app (data extra : list byte) (p : Packet) :
  Deserialize data = ret p -> Deserialize (data ++ extra) = ret p.
Proof. apply Deserialize_app_aux. Qed.

(** ** Witnesses of the further properties *)

Ltac wf_tac :=
  unfold packet_ok, header_ok, question_ok, rr_ok, name_ok; simpl;
  repeat (constructor || lia).


Lemma encodeDomainName_size_witness :
  List.length ["001"; "a"; "001"; "b"; "000"]%byte = (List.length ["a"; "."; "b"]%byte + 2)%nat.
Proof.
  apply (encodeDomainName_size ["a"; "."; "b"]%byte ["001"; "a"; "001"; "b"; "000"]%byte).
  reflexivity.
Defined.

Lemma Serialize_label_check_witness :
  (exists b, Serialize witness_packet = ret b) /\
  Serialize (mkPacket (PHeader witness_packet) (mkQuestion (repeat "a"%byte 64) 1 1) [] [] []) =
    raise ErrLabelTooLong.
Proof.
  split.
  - apply (proj1 (Serialize_label_check witness_packet)). simpl. repeat constructor.
  - apply (proj2 (Serialize_label_check _)).
    intros H. inversion H as [|? ? Hq]. inversion Hq as [|? ? Hl]. vm_compute in Hl. lia.
Defined.

Lemma Serialize_size_witness :
  List.length witness_packet_bytes =
  (12 + (List.length (QName (PQuestion witness_packet)) + 2 + 4) +
   list_sum (map rr_size (Answer witness_packet ++ Authority witness_packet ++
                          Additional witness_packet)))%nat.
Proof. apply (Serialize_size witness_packet witness_packet_bytes). vm_compute. reflexivity. Defined.

Lemma header_bytes_roundtrip_witness :
  serializeHeader (deserializeHeader witness_packet_bytes) = firstn 12 witness_packet_bytes.
Proof. apply header_bytes_roundtrip. vm_compute. lia. Defined.

Lemma name_roundtrip_in_buffer_witness :
  exists enc, encodeDomainName ["a"; "."; "b"]%byte = ret enc /\
    forall pre suf,
      decodeDomainName (pre ++ enc ++ suf) (List.length pre) =
      ret (["a"; "."; "b"]%byte, (List.length pre + List.length enc)%nat).
Proof. apply name_roundtrip_in_buffer. wf_tac. Defined.

Lemma question_roundtrip_witness :
  exists b, serializeQuestion (mkQuestion ["a"; "."; "b"]%byte 1 1) = ret b /\
    forall pre suf,
      deserializeQuestion (pre ++ b ++ suf) (List.length pre) =
      ret (mkQuestion ["a"; "."; "b"]%byte 1 1, (List.length pre + List.length b)%nat).
Proof. apply question_roundtrip. wf_tac. Defined.

Lemma resource_record_roundtrip_witness :
  exists b, serializeResourceRecord (mkResourceRecord ["a"]%byte 1 1 60 2 ["127"; "001"]%byte) = ret b /\
    forall pre suf,
      deserializeResourceRecord (pre ++ b ++ suf) (List.length pre) =
      ret (mkResourceRecord ["a"]%byte 1 1 60 2 ["127"; "001"]%byte,
           (List.length pre + List.length b)%nat).
Proof. apply resource_record_roundtrip. wf_tac. Defined.

Lemma packet_roundtrip_witness :
  exists b, Serialize witness_packet = ret b /\
    forall suf, Deserialize (b ++ suf) = ret witness_packet.
Proof. apply packet_roundtrip. wf_tac. Defined.

Lemma Deserialize_short_witness :
  Deserialize [] = raise ErrPacketTooShort /\
  Deserialize (repeat Byte.x00 12) = raise ErrBufferOverflow.
Proof.
  split; [apply (proj1 (Deserialize_short _)) | apply (proj2 (Deserialize_short _))];
    simpl; lia.
Defined.

Lemma decodeDomainName_app_witness :
  decodeDomainName (["001"; "a"; "000"] ++ ["255"])%byte 0 = ret (["a"]%byte, 3%nat).
Proof. apply (decodeDomainName_app ["001"; "a"; "000"]%byte ["255"]%byte 0). reflexivity. Defined.

Lemma Deserialize_app_witness :
  Deserialize (witness_packet_bytes ++ ["255"]%byte) = ret witness_packet.
Proof. apply Deserialize_app. vm_compute. reflexivity. Defined.
